(** * SGEMM pack kernel (LoongArch LASX) and NNAPI device selection

    Shallow embedding of
      - [SgemmTransposePackB16x4Lasx.s]: the straight-line LASX routine
        [MlasSgemmTransposePackB16x4Lasx] and its macro
        [TransposePackB8x4BlockLasx], run on a small register/memory
        machine;
      - [nnapi_api_helper.cc]: [GetTargetDevices] and the feature-level
        helpers, run against an explicit NNAPI handle. *)

From Stdlib Require Import ZArith List Lia String Ascii.
From Stdlib Require Import DecimalString DecimalN DecimalPos.
From Stdlib.Strings Require Import Byte.
From stdpp Require Import base list strings.

Local Open Scope Z_scope.

(* ===================================================================== *)
(** ** Part I: the LASX machine                                           *)
(* ===================================================================== *)

Module Lasx.

(** 64-bit general registers wrap around. *)
Definition wrap64 (z : Z) : Z := z mod 2 ^ 64.

(** Byte-addressed memory; only addresses in [0, 2^64) are ever used. *)
Definition mem := Z -> byte.

Definition load_byte (m : mem) (a : Z) : byte := m (wrap64 a).

Definition store_byte (m : mem) (a : Z) (b : byte) : mem :=
  fun x => if Z.eqb x (wrap64 a) then b else m x.

(** A 32-bit element is four bytes, little endian; a 128-bit quad word is
    four elements; a 256-bit LASX register is two quad words.  No
    instruction of the routine looks inside an element. *)
Record word := W { b0 : byte; b1 : byte; b2 : byte; b3 : byte }.
Record quad := Q { w0 : word; w1 : word; w2 : word; w3 : word }.
Record xval := XV { lo : quad; hi : quad }.

Definition word_bytes (w : word) : list byte := [b0 w; b1 w; b2 w; b3 w].
Definition quad_bytes (q : quad) : list byte :=
  word_bytes (w0 q) ++ word_bytes (w1 q) ++ word_bytes (w2 q) ++ word_bytes (w3 q).
Definition xval_bytes (v : xval) : list byte := quad_bytes (lo v) ++ quad_bytes (hi v).

Definition load_word (m : mem) (a : Z) : word :=
  W (load_byte m a) (load_byte m (a + 1)) (load_byte m (a + 2)) (load_byte m (a + 3)).

Definition load_quad (m : mem) (a : Z) : quad :=
  Q (load_word m a) (load_word m (a + 4)) (load_word m (a + 8)) (load_word m (a + 12)).

Fixpoint store_bytes (m : mem) (a : Z) (l : list byte) : mem :=
  match l with
  | [] => m
  | b :: l' => store_bytes (store_byte m a b) (a + 1) l'
  end.

(** Registers the routine touches.  [$vrN] is the low quad of [$xrN]. *)
Inductive gpr := ra | a0 | a1 | a2 | t0 | t6.
Inductive vreg := R0 | R1 | R2 | R3 | R4 | R5.

Abbreviation xr0 := R0 (only parsing).
Abbreviation vr0 := R0 (only parsing).
Abbreviation xr1 := R1 (only parsing).
Abbreviation vr1 := R1 (only parsing).
Abbreviation xr2 := R2 (only parsing).
Abbreviation vr2 := R2 (only parsing).
Abbreviation xr3 := R3 (only parsing).
Abbreviation vr3 := R3 (only parsing).
Abbreviation xr4 := R4 (only parsing).
Abbreviation vr4 := R4 (only parsing).
Abbreviation xr5 := R5 (only parsing).
Abbreviation vr5 := R5 (only parsing).

Definition gpr_eqb (x y : gpr) : bool :=
  match x, y with
  | ra, ra | a0, a0 | a1, a1 | a2, a2 | t0, t0 | t6, t6 => true
  | _, _ => false
  end.

Definition vreg_eqb (x y : vreg) : bool :=
  match x, y with
  | R0, R0 | R1, R1 | R2, R2 | R3, R3 | R4, R4 | R5, R5 => true
  | _, _ => false
  end.

Record state := mkState { G : gpr -> Z; X : vreg -> xval; M : mem }.

Definition setG (s : state) (r : gpr) (v : Z) : state :=
  mkState (fun r' => if gpr_eqb r' r then v else G s r') (X s) (M s).

Definition setX (s : state) (r : vreg) (v : xval) : state :=
  mkState (G s) (fun r' => if vreg_eqb r' r then v else X s r') (M s).

Definition setM (s : state) (m : mem) : state := mkState (G s) (X s) m.

Inductive instr :=
| add_d (rd rj rk : gpr)
| slli_d (rd rj : gpr) (ui6 : Z)
| vld (vd : vreg) (rj : gpr) (si12 : Z)
| vldx (vd : vreg) (rj rk : gpr)
| xvpermi_q (xd xj : vreg) (ui8 : Z)
| xvilvl_w (xd xj xk : vreg)
| xvilvh_w (xd xj xk : vreg)
| xvilvl_d (xd xj xk : vreg)
| xvilvh_d (xd xj xk : vreg)
| xvst (xd : vreg) (rj : gpr) (si12 : Z)
| jr (rj : gpr).

(** Interleaves on one 128-bit lane: element [2i] comes from [k], element
    [2i+1] from [j]; the [l] forms read the low half of the lane, the [h]
    forms the high half. *)
Definition ilvl_w (j k : quad) : quad := Q (w0 k) (w0 j) (w1 k) (w1 j).
Definition ilvh_w (j k : quad) : quad := Q (w2 k) (w2 j) (w3 k) (w3 j).
Definition ilvl_d (j k : quad) : quad := Q (w0 k) (w1 k) (w0 j) (w1 j).
Definition ilvh_d (j k : quad) : quad := Q (w2 k) (w3 k) (w2 j) (w3 j).

Definition lanewise (f : quad -> quad -> quad) (j k : xval) : xval :=
  XV (f (lo j) (lo k)) (f (hi j) (hi k)).

(** [xvpermi.q]: bit 1 of the selector picks the register ([xd] when
    set, [xj] otherwise), bit 0 the quad of it. *)
Definition permi_sel (d j : xval) (sel : Z) : quad :=
  let src := if Z.testbit sel 1 then d else j in
  if Z.testbit sel 0 then hi src else lo src.

Section Semantics.

(** Bits 255..128 of [$xrN] after a 128-bit load into [$vrN]: left open,
    as any function of the instruction and the state before it. *)
Variable lsx_upper : instr -> state -> quad.

Definition exec_instr (i : instr) (s : state) : state :=
  match i with
  | add_d rd rj rk => setG s rd (wrap64 (G s rj + G s rk))
  | slli_d rd rj ui6 => setG s rd (wrap64 (Z.shiftl (G s rj) ui6))
  | vld vd rj si12 =>
      setX s vd (XV (load_quad (M s) (G s rj + si12)) (lsx_upper i s))
  | vldx vd rj rk =>
      setX s vd (XV (load_quad (M s) (G s rj + G s rk)) (lsx_upper i s))
  | xvpermi_q xd xj ui8 =>
      setX s xd (XV (permi_sel (X s xd) (X s xj) ui8)
                    (permi_sel (X s xd) (X s xj) (Z.shiftr ui8 4)))
  | xvilvl_w xd xj xk => setX s xd (lanewise ilvl_w (X s xj) (X s xk))
  | xvilvh_w xd xj xk => setX s xd (lanewise ilvh_w (X s xj) (X s xk))
  | xvilvl_d xd xj xk => setX s xd (lanewise ilvl_d (X s xj) (X s xk))
  | xvilvh_d xd xj xk => setX s xd (lanewise ilvh_d (X s xj) (X s xk))
  | xvst xd rj si12 =>
      setM s (store_bytes (M s) (G s rj + si12) (xval_bytes (X s xd)))
  | jr _ => s
  end.

(** Straight-line execution; [jr] returns to the caller. *)
Fixpoint run (p : list instr) (s : state) : state :=
  match p with
  | [] => s
  | jr _ :: _ => s
  | i :: p' => run p' (exec_instr i s)
  end.

End Semantics.

(** The macro, instruction for instruction. *)
Definition TransposePackB8x4BlockLasx (StoreOffset : Z) : list instr :=
  [ add_d t0 a2 a2;
    add_d t6 a1 t0;
    vld vr0 a1 0;
    vldx vr1 a1 a2;
    add_d t0 a2 a2;
    add_d a1 t6 t0;
    vld vr2 t6 0;
    vldx vr3 t6 a2;
    add_d t0 a2 a2;
    add_d t6 a1 t0;
    vld vr4 a1 0;
    xvpermi_q xr0 xr4 0x2;
    vldx vr5 a1 a2;
    xvpermi_q xr1 xr5 0x2;
    vld vr4 t6 0;
    xvpermi_q xr2 xr4 0x2;
    vldx vr5 t6 a2;
    xvpermi_q xr3 xr5 0x2;
    xvilvl_w xr4 xr1 xr0;
    xvilvh_w xr5 xr1 xr0;
    xvilvl_w xr0 xr3 xr2;
    xvilvh_w xr1 xr3 xr2;
    xvilvl_d xr2 xr0 xr4;
    xvilvh_d xr3 xr0 xr4;
    xvst xr2 a0 StoreOffset;
    xvst xr3 a0 (0x40 + StoreOffset);
    xvilvl_d xr0 xr1 xr5;
    xvilvh_d xr4 xr1 xr5;
    xvst xr0 a0 (0x80 + StoreOffset);
    xvst xr4 a0 (0xc0 + StoreOffset) ].

(** The routine: D in [a0], B in [a1], ldb (in elements) in [a2]. *)
Definition MlasSgemmTransposePackB16x4Lasx : list instr :=
  [ slli_d a2 a2 2 ]
  ++ TransposePackB8x4BlockLasx (0 * 4)
  ++ [ add_d t0 a2 a2;
       add_d a1 t0 t6 ]
  ++ TransposePackB8x4BlockLasx (8 * 4)
  ++ [ jr ra ].

(** *** Reading the routine's input and output *)

(** Element [(r, c)] of the row-major source matrix at [B] with [ldb]
    elements per row, and element [i] of the packed buffer at [D]. *)
Definition src_elem (m : mem) (B ldb r c : Z) : word :=
  load_word m (B + 4 * (r * ldb + c)).

Definition dst_elem (m : mem) (D i : Z) : word := load_word m (D + 4 * i).

(** Straight-line code has no [jr]: [run] goes through all of it. *)
Definition is_jr (i : instr) : bool :=
  match i with jr _ => true | _ => false end.

(** The 256-byte packed buffer at [D] holds no byte of the 16x4 source
    window at [B]. *)
Definition window_disjoint (B ldb D : Z) : Prop :=
  forall r c k, 0 <= r < 16 -> 0 <= c < 4 -> 0 <= k < 4 ->
    256 <= wrap64 (B + 4 * (r * ldb + c) + k - D).

(** [0; 1; ..; n-1]. *)
Definition Zseq (n : nat) : list Z := map Z.of_nat (seq 0 n).

Definition read_matrix (m : mem) (B ldb : Z) : list (list word) :=
  map (fun r => map (fun c => src_elem m B ldb r c) (Zseq 4)) (Zseq 16).

Definition read_packed (m : mem) (D : Z) : list word :=
  map (dst_elem m D) (Zseq 64).

(** Where the routine puts element [(r, c)]: 16 columns of 4 rows. *)
Definition pack_index (r c : Z) : Z := 16 * c + r.

Definition zero_word : word := W x00 x00 x00 x00.
Definition zero_quad : quad := Q zero_word zero_word zero_word zero_word.

(** The inverse permutation, applied to a packed buffer. *)
Definition unpack (p : list word) : list (list word) :=
  map (fun r => map (fun c => nth (Z.to_nat (pack_index r c)) p zero_word) (Zseq 4))
      (Zseq 16).

(** The offset formula of the specification's data model, with [cols]
    columns per panel row. *)
Definition spec_offset (cols r c : Z) : Z := (r / 4) * (cols * 4) + c * 4 + r mod 4.

(** A test memory: a 16x4 matrix at 0x1000 whose element [(i, j)] is the
    little-endian integer [4i + j], every other byte 0xff. *)
Definition test_mem : mem := fun a =>
  if (0x1000 <=? a) && (a <? 0x1100) then
    if a mod 4 =? 0
    then match Byte.of_N (Z.to_N ((a - 0x1000) / 4)) with Some b => b | None => x00 end
    else x00
  else xff.

Definition test_regs (D B ldb : Z) : gpr -> Z := fun r =>
  match r with a0 => D | a1 => B | a2 => ldb | _ => 0 end.

(** The routine called with [D = 0x2000], [B = 0x1000], [ldb = 4]. *)
Definition test_state : state :=
  mkState (test_regs 0x2000 0x1000 4) (fun _ => XV zero_quad zero_quad) test_mem.

(** LSX loads that keep the upper quad of the register. *)
Definition keep_upper (i : instr) (s : state) : quad :=
  match i with
  | vld vd _ _ | vldx vd _ _ => hi (X s vd)
  | _ => zero_quad
  end.

(** A sub-view: 16x4 window of a matrix with 6 elements per row at
    0x1000; bytes outside the window are [fill]. *)
Definition subview_mem (fill : byte) : mem := fun a =>
  if (0x1000 <=? a) && (a <? 0x1000 + 16 * 24) && ((a - 0x1000) mod 24 <? 16) then
    match Byte.of_N (Z.to_N ((a - 0x1000) mod 256)) with Some b => b | None => x00 end
  else fill.

Definition subview_state (fill : byte) : state :=
  mkState (test_regs 0x2000 0x1000 6) (fun _ => XV zero_quad zero_quad)
          (subview_mem fill).

(** *** What one macro expansion stores *)

(** Element [n] (of 8) of a register, byte [k] (of 4) of an element. *)
Definition xval_elem (v : xval) (n : Z) : word :=
  match n with
  | 0 => w0 (lo v) | 1 => w1 (lo v) | 2 => w2 (lo v) | 3 => w3 (lo v)
  | 4 => w0 (hi v) | 5 => w1 (hi v) | 6 => w2 (hi v) | _ => w3 (hi v)
  end.

Definition word_byte (w : word) (k : Z) : byte :=
  match k with 0 => b0 w | 1 => b1 w | 2 => b2 w | _ => b3 w end.

(** Column [c] of the eight rows at [p], [L] bytes apart, as one
    register: rows 0..3 in the low quad, rows 4..7 in the high quad. *)
Definition col_xval (m : mem) (p L c : Z) : xval :=
  XV (Q (load_word m (p + 0 * L + 4 * c)) (load_word m (p + 1 * L + 4 * c))
        (load_word m (p + 2 * L + 4 * c)) (load_word m (p + 3 * L + 4 * c)))
     (Q (load_word m (p + 4 * L + 4 * c)) (load_word m (p + 5 * L + 4 * c))
        (load_word m (p + 6 * L + 4 * c)) (load_word m (p + 7 * L + 4 * c))).

(** The four stores of one macro expansion. *)
Definition block_store (m : mem) (D off p L : Z) : mem :=
  store_bytes
    (store_bytes
       (store_bytes
          (store_bytes m (D + off) (xval_bytes (col_xval m p L 0)))
          (D + (0x40 + off)) (xval_bytes (col_xval m p L 1)))
       (D + (0x80 + off)) (xval_bytes (col_xval m p L 2)))
    (D + (0xc0 + off)) (xval_bytes (col_xval m p L 3)).

End Lasx.

(* ===================================================================== *)
(** ** Part II: NNAPI device selection                                    *)
(* ===================================================================== *)

Module Nnapi.

(** Values of the Android NDK headers the file is compiled against
    ([NeuralNetworksTypes.h], [android/api-level.h]). *)
Definition ANEURALNETWORKS_NO_ERROR : Z := 0.
Definition ANEURALNETWORKS_FEATURE_LEVEL_3 : Z := 29.
Definition ANEURALNETWORKS_DEVICE_CPU : Z := 2.
Definition __ANDROID_API_S__ : Z := 31.

(** [static_cast<int32_t>] and the range of a [uint32_t]. *)
Definition to_int32 (z : Z) : Z := (z + 2 ^ 31) mod 2 ^ 32 - 2 ^ 31.
Definition to_uint32 (z : Z) : Z := z mod 2 ^ 32.

(** [std::to_string] on an unsigned index. *)
Definition to_string (i : Z) : string :=
  NilZero.string_of_uint (N.to_uint (Z.to_N i)).

(** The enum and the struct come from [nnapi_api_helper.h]; the fields
    of [DeviceWrapper] are those the aggregate at the [push_back] sets,
    in its order. *)
Inductive TargetDeviceOption := ALL_DEVICES | CPU_DISABLED | CPU_ONLY.

Record DeviceWrapper := mkDevice {
  device : Z;
  name : string;
  type : Z;
  feature_level : Z
}.

(** The NNAPI handle: the runtime feature level and the five entry
    points the file calls.  An entry point returns its result code
    together with what it writes through its out-parameter. *)
Record NnApi := mkNnApi {
  nnapi_runtime_feature_level : Z;
  ANeuralNetworks_getDeviceCount : Z * Z;
  ANeuralNetworks_getDevice : Z -> Z * Z;
  ANeuralNetworksDevice_getName : Z -> Z * string;
  ANeuralNetworksDevice_getType : Z -> Z * Z;
  ANeuralNetworksDevice_getFeatureLevel : Z -> Z * Z
}.

(** Modelled from the spec: the class [Status] is declared outside the
    two source files.  A failing query is "wrapped with a human-readable
    note describing which query failed ... and is propagated to the
    caller as a typed failure result": a failure carries the result code
    and the note. *)
Inductive Status := OK | FAIL (result_code : Z) (note : string).

Definition IsOK (st : Status) : bool :=
  match st with OK => true | FAIL _ _ => false end.

(** The hardware queries, by property and device index. *)
Inductive Query :=
| DeviceCount
| Device (i : Z)
| DeviceName (i : Z)
| DeviceType (i : Z)
| DeviceFeatureLevel (i : Z).

(** A function body runs on the caller's [devices] vector and leaves a
    log of the queries it issued, each with its result code; it either
    goes on with a value or returns a [Status]. *)
Record World := mkWorld { devices : list DeviceWrapper; log : list (Query * Z) }.

Inductive Result (A : Type) := Continue (a : A) | Return (st : Status).
Arguments Continue {A} a.
Arguments Return {A} st.

Definition Body (A : Type) : Type := World -> Result A * World.

Definition ret {A} (a : A) : Body A := fun w => (Continue a, w).

Definition return_ {A} (st : Status) : Body A := fun w => (Return st, w).

Definition bind {A B} (m : Body A) (k : A -> Body B) : Body B :=
  fun w => match m w with
           | (Continue a, w') => k a w'
           | (Return st, w') => (Return st, w')
           end.

Notation "x <- m ;; k" := (bind m (fun x => k))
  (at level 100, m at next level, right associativity).
Notation "m ;;; k" := (bind m (fun _ => k))
  (at level 100, right associativity).

Definition call {A} (q : Query) (r : Z * A) : Body (Z * A) :=
  fun w => (Continue r, mkWorld (devices w) (log w ++ [(q, fst r)])).

(** Modelled from the spec: the macro [RETURN_STATUS_ON_ERROR_WITH_NOTE]
    is defined in a header outside the two source files.  It runs the
    call; a result code other than [ANEURALNETWORKS_NO_ERROR] makes the
    enclosing function return the failure, with the note. *)
Definition RETURN_STATUS_ON_ERROR_WITH_NOTE {A}
    (callable : Body (Z * A)) (note : string) : Body A :=
  r <- callable ;;
  if fst r =? ANEURALNETWORKS_NO_ERROR then ret (snd r)
  else return_ (FAIL (fst r) note).

Definition size : Body Z := fun w => (Continue (Z.of_nat (length (devices w))), w).

Definition push_back (d : DeviceWrapper) : Body unit :=
  fun w => (Continue tt, mkWorld (devices w ++ [d]) (log w)).

(** [std::swap(devices[i], devices[j])].  An index outside the vector is
    undefined in the source; here it leaves the vector as it is. *)
Definition swap_at (l : list DeviceWrapper) (i j : nat) : list DeviceWrapper :=
  match l !! i, l !! j with
  | Some x, Some y => <[i := y]> (<[j := x]> l)
  | _, _ => l
  end.

Definition swap (i j : Z) : Body unit :=
  fun w =>
    (Continue tt,
     mkWorld (if (0 <=? i) && (0 <=? j)
              then swap_at (devices w) (Z.to_nat i) (Z.to_nat j)
              else devices w)
             (log w)).

Definition is_CPU_DISABLED (o : TargetDeviceOption) : bool :=
  match o with CPU_DISABLED => true | _ => false end.

Definition is_CPU_ONLY (o : TargetDeviceOption) : bool :=
  match o with CPU_ONLY => true | _ => false end.

Section Platform.

(** [android_get_device_api_level ()] under [#ifdef __ANDROID__], an
    [int]; [None] for a build without [__ANDROID__]. *)
Variable android_get_device_api_level : option Z.

Definition GetNNAPIRuntimeFeatureLevel (nnapi_handle : NnApi) : Z :=
  let runtime_level := to_int32 (nnapi_runtime_feature_level nnapi_handle) in
  match android_get_device_api_level with
  | Some api =>
      let device_api_level := to_int32 api in
      if device_api_level <? __ANDROID_API_S__ then device_api_level else runtime_level
  | None => runtime_level
  end.

Definition GetDeviceFeatureLevelInternal
    (nnapi_handle : NnApi) (devs : list DeviceWrapper) : Z :=
  let target_feature_level := GetNNAPIRuntimeFeatureLevel nnapi_handle in
  let devices_feature_level :=
    fold_left (fun acc dev => Z.max (feature_level dev) acc) devs (-1) in
  if (0 <? devices_feature_level) && (devices_feature_level <? target_feature_level)
  then to_int32 devices_feature_level
  else target_feature_level.

(** The [for] loop of [GetTargetDevices]: [n] iterations left, at index
    [i]; yields the final [cpu_index]. *)
Fixpoint device_loop (nnapi_handle : NnApi) (target_device_option : TargetDeviceOption)
    (n : nat) (i : Z) (cpu_index : Z) : Body Z :=
  match n with
  | O => ret cpu_index
  | S n' =>
      dev <- RETURN_STATUS_ON_ERROR_WITH_NOTE
               (call (Device i) (ANeuralNetworks_getDevice nnapi_handle i))
               ("Getting " +:+ to_string i +:+ "th device") ;;
      device_name <- RETURN_STATUS_ON_ERROR_WITH_NOTE
               (call (DeviceName i) (ANeuralNetworksDevice_getName nnapi_handle dev))
               ("Getting " +:+ to_string i +:+ "th device's name") ;;
      device_type <- RETURN_STATUS_ON_ERROR_WITH_NOTE
               (call (DeviceType i) (ANeuralNetworksDevice_getType nnapi_handle dev))
               ("Getting " +:+ to_string i +:+ "th device's type") ;;
      curr_device_feature_level <- RETURN_STATUS_ON_ERROR_WITH_NOTE
               (call (DeviceFeatureLevel i)
                     (ANeuralNetworksDevice_getFeatureLevel nnapi_handle dev))
               ("Getting " +:+ to_string i +:+ "th device's feature level") ;;
      let device_is_cpu := device_type =? ANEURALNETWORKS_DEVICE_CPU in
      if (is_CPU_DISABLED target_device_option && device_is_cpu)
         || (is_CPU_ONLY target_device_option && negb device_is_cpu)
      then device_loop nnapi_handle target_device_option n' (i + 1) cpu_index
      else
        sz <- size ;;
        let cpu_index := if device_is_cpu then to_int32 sz else cpu_index in
        push_back (mkDevice dev device_name device_type curr_device_feature_level) ;;;
        device_loop nnapi_handle target_device_option n' (i + 1) cpu_index
  end.

Definition GetTargetDevices_body
    (nnapi_handle : NnApi) (target_device_option : TargetDeviceOption) : Body Status :=
  if GetNNAPIRuntimeFeatureLevel nnapi_handle <? ANEURALNETWORKS_FEATURE_LEVEL_3
  then return_ OK
  else
    num_devices <- RETURN_STATUS_ON_ERROR_WITH_NOTE
                     (call DeviceCount (ANeuralNetworks_getDeviceCount nnapi_handle))
                     "Getting count of available devices" ;;
    cpu_index <- device_loop nnapi_handle target_device_option
                   (Z.to_nat (to_uint32 num_devices)) 0 (-1) ;;
    sz <- size ;;
    (if negb (cpu_index =? -1) && negb (cpu_index =? to_int32 sz - 1)
     then swap (sz - 1) cpu_index
     else ret tt) ;;;
    return_ OK.

Definition status_of (r : Result Status) : Status :=
  match r with Continue st => st | Return st => st end.

(** [GetTargetDevices] on the caller's vector [devs]: the status, the
    vector afterwards, and the queries issued. *)
Definition GetTargetDevices (nnapi_handle : NnApi)
    (target_device_option : TargetDeviceOption) (devs : list DeviceWrapper)
  : Status * list DeviceWrapper * list (Query * Z) :=
  let '(r, w) := GetTargetDevices_body nnapi_handle target_device_option (mkWorld devs []) in
  (status_of r, devices w, log w).

Definition GetNNAPIEffectiveFeatureLevelFromTargetDeviceOption
    (nnapi_handle : NnApi) (target_device_option : TargetDeviceOption) : Z :=
  let '(st, nnapi_target_devices, _) :=
    GetTargetDevices nnapi_handle target_device_option [] in
  if negb (IsOK st) then -1
  else GetDeviceFeatureLevelInternal nnapi_handle nnapi_target_devices.

Definition GetNNAPIEffectiveFeatureLevel
    (nnapi_handle : NnApi) (device_handles : list DeviceWrapper) : Z :=
  GetDeviceFeatureLevelInternal nnapi_handle device_handles.

End Platform.

Section Description.

(** [MakeString] is a helper defined outside the two source files; the
    call passes it two literals around the device's name, its type, and
    a closing literal. *)
Variable MakeString : string -> string -> string -> Z -> string -> string.

Definition GetDevicesDescription (devs : list DeviceWrapper) : string :=
  fold_left
    (fun nnapi_target_devices_detail dev =>
       let device_detail :=
         MakeString "[Name: [" (name dev) "], Type [" (type dev) "]], " in
       nnapi_target_devices_detail +:+ (device_detail +:+ " ,"))
    devs "".

End Description.

(** *** Vocabulary of the statements *)

(** The note each query is reported with. *)
Definition query_note (q : Query) : string :=
  match q with
  | DeviceCount => "Getting count of available devices"
  | Device i => "Getting " +:+ to_string i +:+ "th device"
  | DeviceName i => "Getting " +:+ to_string i +:+ "th device's name"
  | DeviceType i => "Getting " +:+ to_string i +:+ "th device's type"
  | DeviceFeatureLevel i => "Getting " +:+ to_string i +:+ "th device's feature level"
  end.

(** What the loop appends for index [i] when its four queries succeed. *)
Definition device_at (h : NnApi) (i : Z) : DeviceWrapper :=
  let dev := snd (ANeuralNetworks_getDevice h i) in
  mkDevice dev (snd (ANeuralNetworksDevice_getName h dev))
           (snd (ANeuralNetworksDevice_getType h dev))
           (snd (ANeuralNetworksDevice_getFeatureLevel h dev)).

Definition is_cpu (d : DeviceWrapper) : bool := type d =? ANEURALNETWORKS_DEVICE_CPU.

(** The policy filter of the loop. *)
Definition selected (o : TargetDeviceOption) (d : DeviceWrapper) : bool :=
  negb ((is_CPU_DISABLED o && is_cpu d) || (is_CPU_ONLY o && negb (is_cpu d))).

(** The four queries on index [i] all succeed. *)
Definition queries_ok (h : NnApi) (i : Z) : Prop :=
  let dev := snd (ANeuralNetworks_getDevice h i) in
  fst (ANeuralNetworks_getDevice h i) = ANEURALNETWORKS_NO_ERROR
  /\ fst (ANeuralNetworksDevice_getName h dev) = ANEURALNETWORKS_NO_ERROR
  /\ fst (ANeuralNetworksDevice_getType h dev) = ANEURALNETWORKS_NO_ERROR
  /\ fst (ANeuralNetworksDevice_getFeatureLevel h dev) = ANEURALNETWORKS_NO_ERROR.

(** The maximum the loop of [GetDeviceFeatureLevelInternal] computes,
    starting from -1. *)
Definition max_feature_level (devs : list DeviceWrapper) : Z :=
  fold_right (fun d acc => Z.max (feature_level d) acc) (-1) devs.

(** The indices [i, i+1, ..] of [n] loop iterations. *)
Fixpoint indices (i : Z) (n : nat) : list Z :=
  match n with
  | O => []
  | S n' => i :: indices (i + 1) n'
  end.

(** [cpu_index] after the loop has gone through the devices [ds], the
    vector holding [sz] entries before them. *)
Fixpoint cpu_scan (o : TargetDeviceOption) (ds : list DeviceWrapper) (sz cpu : Z) : Z :=
  match ds with
  | [] => cpu
  | d :: ds' =>
      if selected o d
      then cpu_scan o ds' (sz + 1) (if is_cpu d then to_int32 sz else cpu)
      else cpu_scan o ds' sz cpu
  end.

(** A logged query that succeeded. *)
Definition ok_event (e : Query * Z) : Prop := snd e = ANEURALNETWORKS_NO_ERROR.

(** The four queries of iteration [i], as logged when they succeed. *)
Definition ok_queries (h : NnApi) (i : Z) : list (Query * Z) :=
  let dev := snd (ANeuralNetworks_getDevice h i) in
  [ (Device i, fst (ANeuralNetworks_getDevice h i));
    (DeviceName i, fst (ANeuralNetworksDevice_getName h dev));
    (DeviceType i, fst (ANeuralNetworksDevice_getType h dev));
    (DeviceFeatureLevel i, fst (ANeuralNetworksDevice_getFeatureLevel h dev)) ].

(** Decimal digits, of which [std::to_string] writes an index. *)
Definition is_digit (a : ascii) : bool :=
  let n := nat_of_ascii a in (48 <=? n)%nat && (n <=? 57)%nat.

Fixpoint all_digits (s : string) : bool :=
  match s with
  | EmptyString => true
  | String a s' => is_digit a && all_digits s'
  end.

(** The device index a query is about, if any. *)
Definition query_index (q : Query) : option Z :=
  match q with
  | DeviceCount => None
  | Device i | DeviceName i | DeviceType i | DeviceFeatureLevel i => Some i
  end.

(** The event is about no device index below [i]. *)
Definition index_from (i : Z) (e : Query * Z) : Prop :=
  forall k, query_index (fst e) = Some k -> i <= k.

(** The vector once the loop is through: the CPU entry goes last. *)
Definition cpu_last (cpu_index : Z) (devs : list DeviceWrapper) : list DeviceWrapper :=
  let sz := Z.of_nat (length devs) in
  if negb (cpu_index =? -1) && negb (cpu_index =? to_int32 sz - 1)
  then (if (0 <=? sz - 1) && (0 <=? cpu_index)
        then swap_at devs (Z.to_nat (sz - 1)) (Z.to_nat cpu_index)
        else devs)
  else devs.

(** The devices the handle enumerates: as many as its count says, each
    as its four queries describe it. *)
Definition enumerated (h : NnApi) : list DeviceWrapper :=
  map (device_at h)
      (indices 0 (Z.to_nat (to_uint32 (snd (ANeuralNetworks_getDeviceCount h))))).


(** The result code the handle gives a query. *)
Definition answer (h : NnApi) (q : Query) : Z :=
  match q with
  | DeviceCount => fst (ANeuralNetworks_getDeviceCount h)
  | Device i => fst (ANeuralNetworks_getDevice h i)
  | DeviceName i =>
      fst (ANeuralNetworksDevice_getName h (snd (ANeuralNetworks_getDevice h i)))
  | DeviceType i =>
      fst (ANeuralNetworksDevice_getType h (snd (ANeuralNetworks_getDevice h i)))
  | DeviceFeatureLevel i =>
      fst (ANeuralNetworksDevice_getFeatureLevel h (snd (ANeuralNetworks_getDevice h i)))
  end.

(** The queries of the enumeration: the device count, and, once the
    count is there, the four on each index below it. *)
Definition asked (h : NnApi) (q : Query) : Prop :=
  match query_index q with
  | None => True
  | Some i =>
      fst (ANeuralNetworks_getDeviceCount h) = ANEURALNETWORKS_NO_ERROR
      /\ 0 <= i < to_uint32 (snd (ANeuralNetworks_getDeviceCount h))
  end.

(** Test handles: three devices, the CPU first and two accelerators, on
    a runtime of feature level [lvl]; [name_code] is the result code of
    the name query on the third device. *)
Definition test_handle (lvl name_code : Z) : NnApi :=
  mkNnApi lvl (ANEURALNETWORKS_NO_ERROR, 3)
    (fun i => (ANEURALNETWORKS_NO_ERROR, 100 + i))
    (fun d => (if d =? 102 then name_code else ANEURALNETWORKS_NO_ERROR,
               if d =? 100 then "nnapi-reference" else "accelerator"))
    (fun d => (ANEURALNETWORKS_NO_ERROR, if d =? 100 then ANEURALNETWORKS_DEVICE_CPU else 4))
    (fun d => (ANEURALNETWORKS_NO_ERROR, if d =? 100 then 1000 else 29)).

Definition test_acc (d : Z) : DeviceWrapper := mkDevice d "accelerator" 4 29.
Definition test_cpu : DeviceWrapper :=
  mkDevice 100 "nnapi-reference" ANEURALNETWORKS_DEVICE_CPU 1000.

End Nnapi.

(* ===================================================================== *)
(** ** Part II, continued: the device name as a pointer                   *)
(* ===================================================================== *)

(** [Nnapi] takes what a name query writes as a string.  In the source
    it is a [const char*] that the loop initialises to [nullptr], and
    [std::string(device_name)] is built from it where the device is
    pushed.  This module keeps the pointer, to tell when
    [GetTargetDevices] returns at all. *)
Module NnapiC.
Import Nnapi.

(** The handle, the name query writing a pointer: [None] is [nullptr],
    which is also what the pointer holds when the query writes nothing. *)
Record NnApi := mkNnApi {
  nnapi_runtime_feature_level : Z;
  ANeuralNetworks_getDeviceCount : Z * Z;
  ANeuralNetworks_getDevice : Z -> Z * Z;
  ANeuralNetworksDevice_getName : Z -> Z * option string;
  ANeuralNetworksDevice_getType : Z -> Z * Z;
  ANeuralNetworksDevice_getFeatureLevel : Z -> Z * Z
}.

(** A body that may also leave by an exception. *)
Inductive Outcome (A : Type) := Normal (r : Result A) | Exception.
Arguments Normal {A} r.
Arguments Exception {A}.

Definition Throwing (A : Type) : Type := World -> Outcome A * World.

Definition lift {A} (m : Body A) : Throwing A :=
  fun w => let '(r, w') := m w in (Normal r, w').

Definition bind_throwing {A B} (m : Throwing A) (k : A -> Throwing B) : Throwing B :=
  fun w => match m w with
           | (Normal (Continue a), w') => k a w'
           | (Normal (Return st), w') => (Normal (Return st), w')
           | (Exception, w') => (Exception, w')
           end.

Notation "x <~ m ;; k" := (bind_throwing m (fun x => k))
  (at level 100, m at next level, right associativity).
Notation "m ;;~ k" := (bind_throwing m (fun _ => k))
  (at level 100, right associativity).

(** [std::string] built from a [const char*].  A null pointer is outside
    the constructor's precondition; libstdc++ throws [std::logic_error]. *)
Definition std_string (s : option string) : Throwing string :=
  fun w => match s with
           | Some t => (Normal (Continue t), w)
           | None => (Exception, w)
           end.

Section Platform.

Variable android_get_device_api_level : option Z.

Definition GetNNAPIRuntimeFeatureLevel (nnapi_handle : NnApi) : Z :=
  let runtime_level := to_int32 (nnapi_runtime_feature_level nnapi_handle) in
  match android_get_device_api_level with
  | Some api =>
      let device_api_level := to_int32 api in
      if device_api_level <? __ANDROID_API_S__ then device_api_level else runtime_level
  | None => runtime_level
  end.

Fixpoint device_loop (nnapi_handle : NnApi) (target_device_option : TargetDeviceOption)
    (n : nat) (i : Z) (cpu_index : Z) : Throwing Z :=
  match n with
  | O => lift (ret cpu_index)
  | S n' =>
      dev <~ lift (RETURN_STATUS_ON_ERROR_WITH_NOTE
               (call (Device i) (ANeuralNetworks_getDevice nnapi_handle i))
               ("Getting " +:+ to_string i +:+ "th device")) ;;
      device_name <~ lift (RETURN_STATUS_ON_ERROR_WITH_NOTE
               (call (DeviceName i) (ANeuralNetworksDevice_getName nnapi_handle dev))
               ("Getting " +:+ to_string i +:+ "th device's name")) ;;
      device_type <~ lift (RETURN_STATUS_ON_ERROR_WITH_NOTE
               (call (DeviceType i) (ANeuralNetworksDevice_getType nnapi_handle dev))
               ("Getting " +:+ to_string i +:+ "th device's type")) ;;
      curr_device_feature_level <~ lift (RETURN_STATUS_ON_ERROR_WITH_NOTE
               (call (DeviceFeatureLevel i)
                     (ANeuralNetworksDevice_getFeatureLevel nnapi_handle dev))
               ("Getting " +:+ to_string i +:+ "th device's feature level")) ;;
      let device_is_cpu := device_type =? ANEURALNETWORKS_DEVICE_CPU in
      if (is_CPU_DISABLED target_device_option && device_is_cpu)
         || (is_CPU_ONLY target_device_option && negb device_is_cpu)
      then device_loop nnapi_handle target_device_option n' (i + 1) cpu_index
      else
        sz <~ lift size ;;
        let cpu_index := if device_is_cpu then to_int32 sz else cpu_index in
        name <~ std_string device_name ;;
        lift (push_back (mkDevice dev name device_type curr_device_feature_level)) ;;~
        device_loop nnapi_handle target_device_option n' (i + 1) cpu_index
  end.

Definition GetTargetDevices_body
    (nnapi_handle : NnApi) (target_device_option : TargetDeviceOption) : Throwing Status :=
  if GetNNAPIRuntimeFeatureLevel nnapi_handle <? ANEURALNETWORKS_FEATURE_LEVEL_3
  then lift (return_ OK)
  else
    num_devices <~ lift (RETURN_STATUS_ON_ERROR_WITH_NOTE
                     (call DeviceCount (ANeuralNetworks_getDeviceCount nnapi_handle))
                     "Getting count of available devices") ;;
    cpu_index <~ device_loop nnapi_handle target_device_option
                   (Z.to_nat (to_uint32 num_devices)) 0 (-1) ;;
    sz <~ lift size ;;
    (if negb (cpu_index =? -1) && negb (cpu_index =? to_int32 sz - 1)
     then lift (swap (sz - 1) cpu_index)
     else lift (ret tt)) ;;~
    lift (return_ OK).

(** How a call ends: with a [Status], or with an exception. *)
Inductive Completion := Returned (st : Status) | Thrown.

Definition completion (o : Outcome Status) : Completion :=
  match o with
  | Normal r => Returned (status_of r)
  | Exception => Thrown
  end.

(** [GetTargetDevices] on the caller's vector [devs]: how it ends, the
    vector afterwards, and the queries issued. *)
Definition GetTargetDevices (nnapi_handle : NnApi)
    (target_device_option : TargetDeviceOption) (devs : list DeviceWrapper)
  : Completion * list DeviceWrapper * list (Query * Z) :=
  let '(o, w) := GetTargetDevices_body nnapi_handle target_device_option (mkWorld devs []) in
  (completion o, devices w, log w).

End Platform.

(** *** Vocabulary of the statements *)

(** Every name query that reports success has written a name. *)
Definition names_valid (c : NnApi) : Prop :=
  forall d, fst (ANeuralNetworksDevice_getName c d) = ANEURALNETWORKS_NO_ERROR ->
            snd (ANeuralNetworksDevice_getName c d) <> None.

(** The result code the handle gives a query. *)
Definition answer (c : NnApi) (q : Query) : Z :=
  match q with
  | DeviceCount => fst (ANeuralNetworks_getDeviceCount c)
  | Device i => fst (ANeuralNetworks_getDevice c i)
  | DeviceName i =>
      fst (ANeuralNetworksDevice_getName c (snd (ANeuralNetworks_getDevice c i)))
  | DeviceType i =>
      fst (ANeuralNetworksDevice_getType c (snd (ANeuralNetworks_getDevice c i)))
  | DeviceFeatureLevel i =>
      fst (ANeuralNetworksDevice_getFeatureLevel c (snd (ANeuralNetworks_getDevice c i)))
  end.

(** The queries of the enumeration: the device count, and, once the
    count is there, the four on each index below it. *)
Definition asked (c : NnApi) (q : Query) : Prop :=
  match query_index q with
  | None => True
  | Some i =>
      fst (ANeuralNetworks_getDeviceCount c) = ANEURALNETWORKS_NO_ERROR
      /\ 0 <= i < to_uint32 (snd (ANeuralNetworks_getDeviceCount c))
  end.

(** The handle with its name pointers read as strings, a null pointer
    as the empty string. *)
Definition as_strings (c : NnApi) : Nnapi.NnApi :=
  Nnapi.mkNnApi (nnapi_runtime_feature_level c) (ANeuralNetworks_getDeviceCount c)
    (ANeuralNetworks_getDevice c)
    (fun d => (fst (ANeuralNetworksDevice_getName c d),
               match snd (ANeuralNetworksDevice_getName c d) with
               | Some t => t
               | None => EmptyString
               end))
    (ANeuralNetworksDevice_getType c) (ANeuralNetworksDevice_getFeatureLevel c).

(** A handle of [Nnapi], every name a pointer to its string. *)
Definition as_pointers (h : Nnapi.NnApi) : NnApi :=
  mkNnApi (Nnapi.nnapi_runtime_feature_level h) (Nnapi.ANeuralNetworks_getDeviceCount h)
    (Nnapi.ANeuralNetworks_getDevice h)
    (fun d => (fst (Nnapi.ANeuralNetworksDevice_getName h d),
               Some (snd (Nnapi.ANeuralNetworksDevice_getName h d))))
    (Nnapi.ANeuralNetworksDevice_getType h) (Nnapi.ANeuralNetworksDevice_getFeatureLevel h).

(** Test handle: two devices on a runtime of feature level 30.  The name
    query on the first reports success and writes nothing; [code] is the
    result code of getting the second device. *)
Definition null_name_handle (code : Z) : NnApi :=
  mkNnApi 30 (ANEURALNETWORKS_NO_ERROR, 2)
    (fun i => (if i =? 1 then code else ANEURALNETWORKS_NO_ERROR, 100 + i))
    (fun d => (ANEURALNETWORKS_NO_ERROR, if d =? 100 then None else Some "accelerator"))
    (fun d => (ANEURALNETWORKS_NO_ERROR, 4))
    (fun d => (ANEURALNETWORKS_NO_ERROR, 29)).

End NnapiC.

(* ===================================================================== *)
(** ** Part III: the pack kernel, proved                                  *)
(* ===================================================================== *)

Import Lasx.

Lemma wrap64_range z : 0 <= wrap64 z < 2 ^ 64.
Proof. unfold wrap64. apply Z.mod_pos_bound. lia. Qed.

Lemma wrap64_small z : 0 <= z < 2 ^ 64 -> wrap64 z = z.
Proof. unfold wrap64. apply Z.mod_small. Qed.

Lemma wrap64_idem z : wrap64 (wrap64 z) = wrap64 z.
Proof. apply wrap64_small, wrap64_range. Qed.

Lemma wrap64_add_l a b : wrap64 (wrap64 a + b) = wrap64 (a + b).
Proof. unfold wrap64. apply Zplus_mod_idemp_l. Qed.

Lemma wrap64_add_r a b : wrap64 (a + wrap64 b) = wrap64 (a + b).
Proof. unfold wrap64. apply Zplus_mod_idemp_r. Qed.

Lemma wrap64_sub_l a b : wrap64 (wrap64 a - b) = wrap64 (a - b).
Proof. unfold wrap64. apply Zminus_mod_idemp_l. Qed.

Lemma wrap64_sub_r a b : wrap64 (a - wrap64 b) = wrap64 (a - b).
Proof. unfold wrap64. apply Zminus_mod_idemp_r. Qed.

Lemma wrap64_eq_iff a b : wrap64 a = wrap64 b <-> wrap64 (a - b) = 0.
Proof.
  unfold wrap64. split; intros H.
  - rewrite Zminus_mod, H, Z.sub_diag. reflexivity.
  - apply Z.mod_divide in H; [|lia]. destruct H as [q Hq].
    replace a with (b + q * 2 ^ 64) by lia. apply Z_mod_plus_full.
Qed.

Lemma load_store_byte m a b x :
  load_byte (store_byte m a b) x = if wrap64 (x - a) =? 0 then b else load_byte m x.
Proof.
  unfold load_byte, store_byte.
  destruct (Z.eqb_spec (wrap64 x) (wrap64 a)) as [E|E];
    destruct (Z.eqb_spec (wrap64 (x - a)) 0) as [F|F]; try reflexivity.
  - apply wrap64_eq_iff in E. contradiction.
  - apply wrap64_eq_iff in F. contradiction.
Qed.

Lemma wrap64_pred x a :
  wrap64 (x - (a + 1)) = if wrap64 (x - a) =? 0 then 2 ^ 64 - 1 else wrap64 (x - a) - 1.
Proof.
  replace (x - (a + 1)) with ((x - a) - 1) by lia.
  rewrite <- wrap64_sub_l. pose proof (wrap64_range (x - a)) as R.
  destruct (Z.eqb_spec (wrap64 (x - a)) 0) as [E|E].
  - rewrite E. reflexivity.
  - apply wrap64_small. lia.
Qed.

Lemma load_store_bytes l : forall m a x,
  Z.of_nat (length l) <= 2 ^ 64 ->
  load_byte (store_bytes m a l) x =
  match l !! Z.to_nat (wrap64 (x - a)) with
  | Some b => b
  | None => load_byte m x
  end.
Proof.
  induction l as [|b l IH]; intros m a x Hlen; simpl.
  - reflexivity.
  - rewrite IH by (simpl in Hlen; lia).
    rewrite wrap64_pred, load_store_byte.
    pose proof (wrap64_range (x - a)) as R.
    destruct (Z.eqb_spec (wrap64 (x - a)) 0) as [E|E].
    + rewrite E. simpl. rewrite lookup_ge_None_2; [reflexivity|].
      simpl in Hlen. lia.
    + replace (Z.to_nat (wrap64 (x - a))) with (S (Z.to_nat (wrap64 (x - a) - 1))) by lia.
      reflexivity.
Qed.

Lemma store_bytes_outside l : forall m a x,
  ~ (0 <= x < 2 ^ 64) -> store_bytes m a l x = m x.
Proof.
  induction l as [|b l IH]; intros m a x Hx; simpl; [reflexivity|].
  rewrite IH by assumption. unfold store_byte.
  destruct (Z.eqb_spec x (wrap64 a)) as [E|E]; [|reflexivity].
  pose proof (wrap64_range a). lia.
Qed.

Ltac solve_wrap := unfold wrap64; Z.div_mod_to_equations; lia.

Lemma load_byte_ext m a b : wrap64 a = wrap64 b -> load_byte m a = load_byte m b.
Proof. unfold load_byte. intros ->. reflexivity. Qed.

Lemma load_word_ext m a b : wrap64 a = wrap64 b -> load_word m a = load_word m b.
Proof.
  intros H. unfold load_word.
  f_equal; apply load_byte_ext; try assumption;
    rewrite <- (wrap64_add_l a), <- (wrap64_add_l b), H; reflexivity.
Qed.

Lemma load_word_byte m a k :
  0 <= k < 4 -> word_byte (load_word m a) k = load_byte m (a + k).
Proof.
  intros Hk.
  assert (k = 0 \/ k = 1 \/ k = 2 \/ k = 3) as [->|[->|[->| ->]]] by lia;
    try reflexivity.
  simpl. now rewrite Z.add_0_r.
Qed.

Lemma xval_bytes_lookup_nat v (n : nat) :
  (n < 32)%nat ->
  xval_bytes v !! n =
  Some (word_byte (xval_elem v (Z.of_nat n / 4)) (Z.of_nat n mod 4)).
Proof.
  intros Hn. do 32 (destruct n as [|n]; [reflexivity|]). lia.
Qed.

Lemma xval_bytes_lookup v i :
  0 <= i < 32 ->
  xval_bytes v !! Z.to_nat i = Some (word_byte (xval_elem v (i / 4)) (i mod 4)).
Proof.
  intros Hi. rewrite xval_bytes_lookup_nat by lia.
  rewrite Z2Nat.id by lia. reflexivity.
Qed.

Lemma load_store_xval m a v x :
  load_byte (store_bytes m a (xval_bytes v)) x =
  if wrap64 (x - a) <? 32
  then word_byte (xval_elem v (wrap64 (x - a) / 4)) (wrap64 (x - a) mod 4)
  else load_byte m x.
Proof.
  rewrite load_store_bytes by (simpl; lia).
  pose proof (wrap64_range (x - a)) as R.
  destruct (Z.ltb_spec (wrap64 (x - a)) 32) as [H|H].
  - rewrite xval_bytes_lookup by lia. reflexivity.
  - rewrite lookup_ge_None_2; [reflexivity|]. simpl. lia.
Qed.

Lemma col_xval_elem m p L c e :
  0 <= e < 8 -> xval_elem (col_xval m p L c) e = load_word m (p + e * L + 4 * c).
Proof.
  intros He.
  assert (e = 0 \/ e = 1 \/ e = 2 \/ e = 3 \/ e = 4 \/ e = 5 \/ e = 6 \/ e = 7)
    as [->|[->|[->|[->|[->|[->|[->| ->]]]]]]] by lia; reflexivity.
Qed.

Lemma store_bytes_cong m m' a v v' :
  m = m' -> v = v' ->
  store_bytes m a (xval_bytes v) = store_bytes m' a (xval_bytes v').
Proof. intros -> ->. reflexivity. Qed.

Lemma xval_load_cong m x0 x1 x2 x3 x4 x5 x6 x7 y0 y1 y2 y3 y4 y5 y6 y7 :
  wrap64 x0 = wrap64 y0 -> wrap64 x1 = wrap64 y1 ->
  wrap64 x2 = wrap64 y2 -> wrap64 x3 = wrap64 y3 ->
  wrap64 x4 = wrap64 y4 -> wrap64 x5 = wrap64 y5 ->
  wrap64 x6 = wrap64 y6 -> wrap64 x7 = wrap64 y7 ->
  XV (Q (load_word m x0) (load_word m x1) (load_word m x2) (load_word m x3))
     (Q (load_word m x4) (load_word m x5) (load_word m x6) (load_word m x7)) =
  XV (Q (load_word m y0) (load_word m y1) (load_word m y2) (load_word m y3))
     (Q (load_word m y4) (load_word m y5) (load_word m y6) (load_word m y7)).
Proof.
  intros H0 H1 H2 H3 H4 H5 H6 H7.
  rewrite (load_word_ext m _ _ H0), (load_word_ext m _ _ H1),
    (load_word_ext m _ _ H2), (load_word_ext m _ _ H3),
    (load_word_ext m _ _ H4), (load_word_ext m _ _ H5),
    (load_word_ext m _ _ H6), (load_word_ext m _ _ H7).
  reflexivity.
Qed.

(** What one macro expansion leaves in memory and in the pointers. *)
Lemma block_run up s off :
  M (run up (TransposePackB8x4BlockLasx off) s) =
    block_store (M s) (G s a0) off (G s a1) (G s a2)
  /\ G (run up (TransposePackB8x4BlockLasx off) s) a0 = G s a0
  /\ G (run up (TransposePackB8x4BlockLasx off) s) a2 = G s a2
  /\ G (run up (TransposePackB8x4BlockLasx off) s) a1 = wrap64 (G s a1 + 4 * G s a2)
  /\ G (run up (TransposePackB8x4BlockLasx off) s) t6 = wrap64 (G s a1 + 6 * G s a2).
Proof.
  destruct s as [g xs m].
  lazy -[Z.add Z.mul Z.sub wrap64 load_word store_bytes xval_bytes block_store col_xval].
  split; [|split; [reflexivity|split; [reflexivity|split; solve_wrap]]].
  unfold block_store, col_xval.
  repeat apply store_bytes_cong; try exact eq_refl.
  all: apply xval_load_cong; solve_wrap.
Qed.

Lemma wrap64_sub_hit d k :
  0 <= d < 2 ^ 64 -> 0 <= k <= 192 -> k <= d ->
  wrap64 (d - k) = d - k.
Proof. intros. apply wrap64_small. lia. Qed.

Lemma wrap64_sub_miss d k :
  0 <= d < 2 ^ 64 -> 0 <= k <= 192 -> d < k ->
  (wrap64 (d - k) <? 32) = false.
Proof.
  intros Hd Hk Hlt. apply Z.ltb_ge.
  replace (wrap64 (d - k)) with (d - k + 2 ^ 64); [lia|].
  unfold wrap64. rewrite <- (Z_mod_plus_full (d - k) 1 (2 ^ 64)).
  symmetry. apply Z.mod_small. lia.
Qed.

Lemma col_byte m p L c j :
  0 <= j < 32 ->
  word_byte (xval_elem (col_xval m p L c) (j / 4)) (j mod 4) =
  load_byte m (p + (j / 4) * L + 4 * c + j mod 4).
Proof.
  intros Hj. rewrite col_xval_elem by (Z.div_mod_to_equations; lia).
  apply load_word_byte. Z.div_mod_to_equations; lia.
Qed.

(** Reading a byte back after one macro expansion: offsets
    [64c + 4e + k] with [e < 8] hold byte [k] of row [e], column [c]. *)
Lemma block_read m D off p L x :
  load_byte (block_store m D off p L) x =
  let d := wrap64 (x - (D + off)) in
  if (d <? 256) && (d mod 64 <? 32)
  then load_byte m (p + (d mod 64 / 4) * L + 4 * (d / 64) + d mod 4)
  else load_byte m x.
Proof.
  unfold block_store. rewrite !load_store_xval. cbv zeta.
  pose proof (wrap64_range (x - (D + off))) as R.
  assert (E1 : wrap64 (x - (D + (0x40 + off))) = wrap64 (wrap64 (x - (D + off)) - 64))
    by solve_wrap.
  assert (E2 : wrap64 (x - (D + (0x80 + off))) = wrap64 (wrap64 (x - (D + off)) - 128))
    by solve_wrap.
  assert (E3 : wrap64 (x - (D + (0xc0 + off))) = wrap64 (wrap64 (x - (D + off)) - 192))
    by solve_wrap.
  rewrite E1, E2, E3. clear E1 E2 E3.
  generalize dependent (wrap64 (x - (D + off))). intros d R.
  assert (C : d < 64 \/ 64 <= d < 128 \/ 128 <= d < 192 \/ 192 <= d) by lia.
  destruct C as [C|[C|[C|C]]].
  - rewrite (wrap64_sub_miss d 192), (wrap64_sub_miss d 128), (wrap64_sub_miss d 64) by lia.
    replace (d <? 256) with true by (symmetry; apply Z.ltb_lt; lia).
    rewrite (Z.mod_small d 64) by lia. simpl andb.
    destruct (Z.ltb_spec d 32) as [H|H]; [|reflexivity].
    rewrite col_byte by lia.
    replace (d / 64) with 0 by (Z.div_mod_to_equations; lia). reflexivity.
  - rewrite (wrap64_sub_miss d 192), (wrap64_sub_miss d 128) by lia.
    rewrite (wrap64_sub_hit d 64) by lia.
    replace (d <? 256) with true by (symmetry; apply Z.ltb_lt; lia).
    replace (d mod 64) with (d - 64) by (Z.div_mod_to_equations; lia).
    simpl andb.
    destruct (Z.ltb_spec (d - 64) 32) as [H|H].
    + rewrite col_byte by lia.
      replace (d / 64) with 1 by (Z.div_mod_to_equations; lia).
      replace (d mod 4) with ((d - 64) mod 4) by (Z.div_mod_to_equations; lia).
      reflexivity.
    + replace (d <? 32) with false by (symmetry; apply Z.ltb_ge; lia). reflexivity.
  - rewrite (wrap64_sub_miss d 192) by lia.
    rewrite (wrap64_sub_hit d 128) by lia.
    replace (d <? 256) with true by (symmetry; apply Z.ltb_lt; lia).
    replace (d mod 64) with (d - 128) by (Z.div_mod_to_equations; lia).
    simpl andb.
    destruct (Z.ltb_spec (d - 128) 32) as [H|H].
    + rewrite col_byte by lia.
      replace (d / 64) with 2 by (Z.div_mod_to_equations; lia).
      replace (d mod 4) with ((d - 128) mod 4) by (Z.div_mod_to_equations; lia).
      reflexivity.
    + rewrite (wrap64_sub_hit d 64) by lia.
      replace (d - 64 <? 32) with false by (symmetry; apply Z.ltb_ge; lia).
      replace (d <? 32) with false by (symmetry; apply Z.ltb_ge; lia). reflexivity.
  - rewrite (wrap64_sub_hit d 192) by lia.
    destruct (Z.ltb_spec (d - 192) 32) as [H|H].
    + replace (d <? 256) with true by (symmetry; apply Z.ltb_lt; lia).
      replace (d mod 64) with (d - 192) by (Z.div_mod_to_equations; lia).
      replace (d - 192 <? 32) with true by (symmetry; apply Z.ltb_lt; lia).
      simpl andb. rewrite col_byte by lia.
      replace (d / 64) with 3 by (Z.div_mod_to_equations; lia).
      replace (d mod 4) with ((d - 192) mod 4) by (Z.div_mod_to_equations; lia).
      reflexivity.
    + rewrite (wrap64_sub_hit d 128), (wrap64_sub_hit d 64) by lia.
      replace (d - 128 <? 32) with false by (symmetry; apply Z.ltb_ge; lia).
      replace (d - 64 <? 32) with false by (symmetry; apply Z.ltb_ge; lia).
      replace (d <? 32) with false by (symmetry; apply Z.ltb_ge; lia).
      destruct (Z.ltb_spec d 256) as [H'|H']; [|reflexivity].
      replace (d mod 64 <? 32) with false
        by (symmetry; apply Z.ltb_ge; Z.div_mod_to_equations; lia).
      reflexivity.
Qed.

Lemma run_app up p q s :
  forallb (fun i => negb (is_jr i)) p = true ->
  run up (p ++ q) s = run up q (run up p s).
Proof.
  revert s. induction p as [|i p IH]; intros s H; [reflexivity|].
  simpl in H. apply andb_prop in H as [Hi Hp].
  destruct i; try discriminate Hi; simpl; apply IH; assumption.
Qed.

Lemma wrap64_mul_r a b : wrap64 (a * wrap64 b) = wrap64 (a * b).
Proof. unfold wrap64. apply Zmult_mod_idemp_r. Qed.

Lemma wrap64_scaled X e b Y1 Y2 :
  wrap64 (X + e * wrap64 b + Y1 + Y2) = wrap64 (X + e * b + Y1 + Y2).
Proof.
  replace (X + e * wrap64 b + Y1 + Y2) with ((X + Y1 + Y2) + e * wrap64 b) by ring.
  rewrite <- wrap64_add_r, wrap64_mul_r, wrap64_add_r. f_equal. ring.
Qed.

(** The row stride in bytes, as [slli.d] leaves it in [a2]. *)
Lemma ldb_bytes ldb : wrap64 (Z.shiftl ldb 2) = wrap64 (4 * ldb).
Proof. rewrite Z.shiftl_mul_pow2 by lia. f_equal. lia. Qed.

Lemma run_slli up s :
  M (run up [slli_d a2 a2 2] s) = M s
  /\ G (run up [slli_d a2 a2 2] s) a0 = G s a0
  /\ G (run up [slli_d a2 a2 2] s) a1 = G s a1
  /\ G (run up [slli_d a2 a2 2] s) a2 = wrap64 (4 * G s a2).
Proof.
  split; [reflexivity|]. split; [reflexivity|]. split; [reflexivity|].
  exact (ldb_bytes (G s a2)).
Qed.

Lemma run_advance up s :
  M (run up [add_d t0 a2 a2; add_d a1 t0 t6] s) = M s
  /\ G (run up [add_d t0 a2 a2; add_d a1 t0 t6] s) a0 = G s a0
  /\ G (run up [add_d t0 a2 a2; add_d a1 t0 t6] s) a2 = G s a2
  /\ G (run up [add_d t0 a2 a2; add_d a1 t0 t6] s) a1 =
       wrap64 (wrap64 (G s a2 + G s a2) + G s t6).
Proof. split; [reflexivity|]. split; [reflexivity|]. split; reflexivity. Qed.

Lemma run_jr up r s : run up [jr r] s = s.
Proof. reflexivity. Qed.

(** The routine is two macro expansions, the second eight rows further. *)
Lemma kernel_mem up s :
  M (run up MlasSgemmTransposePackB16x4Lasx s) =
  block_store (block_store (M s) (G s a0) 0 (G s a1) (wrap64 (4 * G s a2)))
              (G s a0) 32
              (wrap64 (wrap64 (wrap64 (4 * G s a2) + wrap64 (4 * G s a2))
                       + wrap64 (G s a1 + 6 * wrap64 (4 * G s a2))))
              (wrap64 (4 * G s a2)).
Proof.
  unfold MlasSgemmTransposePackB16x4Lasx.
  rewrite 4 run_app by reflexivity.
  rewrite run_jr.
  destruct (run_slli up s) as (H1m & H1a0 & H1a1 & H1a2).
  generalize dependent (run up [slli_d a2 a2 2] s). intros s1 H1m H1a0 H1a1 H1a2.
  destruct (block_run up s1 (0 * 4)) as (H2m & H2a0 & H2a2 & H2a1 & H2t6).
  generalize dependent (run up (TransposePackB8x4BlockLasx (0 * 4)) s1).
  intros s2 H2m H2a0 H2a2 H2a1 H2t6.
  destruct (run_advance up s2) as (H3m & H3a0 & H3a2 & H3a1).
  generalize dependent (run up [add_d t0 a2 a2; add_d a1 t0 t6] s2).
  intros s3 H3m H3a0 H3a2 H3a1.
  destruct (block_run up s3 (8 * 4)) as (H4m & _).
  rewrite H4m, H3m, H3a0, H3a2, H3a1, H2m, H2a0, H2a2, H2t6, H1m, H1a0, H1a1, H1a2.
  reflexivity.
Qed.

Lemma wrap64_sub_far d k :
  0 <= d < 2 ^ 64 -> 0 < k <= 192 -> d < k ->
  (wrap64 (d - k) <? 256) = false.
Proof.
  intros Hd Hk Hlt. apply Z.ltb_ge.
  replace (wrap64 (d - k)) with (d - k + 2 ^ 64); [lia|].
  unfold wrap64. rewrite <- (Z_mod_plus_full (d - k) 1 (2 ^ 64)).
  symmetry. apply Z.mod_small. lia.
Qed.

(** Every byte of memory after the routine returns.  Offset [d] from [D]
    holds byte [d mod 4] of source row [d mod 64 / 4], column [d / 64];
    rows 8..15 are read after the first expansion has stored. *)
Lemma kernel_read up s x :
  load_byte (M (run up MlasSgemmTransposePackB16x4Lasx s)) x =
  let d := wrap64 (x - G s a0) in
  if d <? 256 then
    load_byte
      (if d mod 64 <? 32 then M s
       else block_store (M s) (G s a0) 0 (G s a1) (wrap64 (4 * G s a2)))
      (G s a1 + 4 * ((d mod 64 / 4) * G s a2 + d / 64) + d mod 4)
  else load_byte (M s) x.
Proof.
  rewrite kernel_mem.
  generalize (G s a0) (G s a1) (G s a2) (M s). intros D B ldb m.
  rewrite block_read. cbv zeta.
  assert (E : wrap64 (x - (D + 32)) = wrap64 (wrap64 (x - D) - 32)) by solve_wrap.
  rewrite E. clear E.
  rewrite (block_read m D 0 B _ x). cbv zeta.
  replace (D + 0) with D by lia.
  pose proof (wrap64_range (x - D)) as R.
  generalize dependent (wrap64 (x - D)). intros d R.
  destruct (Z.ltb_spec d 32) as [Hd|Hd].
  - rewrite wrap64_sub_far by lia. simpl andb. cbv iota.
    replace (d <? 256) with true by (symmetry; apply Z.ltb_lt; lia).
    rewrite (Z.mod_small d 64) by lia.
    replace (d <? 32) with true by (symmetry; apply Z.ltb_lt; lia).
    simpl andb. cbv iota.
    apply load_byte_ext. rewrite wrap64_scaled. f_equal. ring.
  - rewrite (wrap64_sub_hit d 32) by lia.
    destruct (Z.ltb_spec (d - 32) 256) as [H1|H1];
      destruct (Z.ltb_spec ((d - 32) mod 64) 32) as [H2|H2]; simpl andb; cbv iota.
    + assert (Hm : 32 <= d mod 64) by (Z.div_mod_to_equations; lia).
      assert (Hlt : d < 256) by (Z.div_mod_to_equations; lia).
      replace (d <? 256) with true by (symmetry; apply Z.ltb_lt; lia).
      replace (d mod 64 <? 32) with false by (symmetry; apply Z.ltb_ge; lia).
      apply load_byte_ext. rewrite wrap64_scaled.
      replace ((d - 32) mod 64 / 4) with (d mod 64 / 4 - 8)
        by (Z.div_mod_to_equations; lia).
      replace ((d - 32) / 64) with (d / 64) by (Z.div_mod_to_equations; lia).
      replace ((d - 32) mod 4) with (d mod 4) by (Z.div_mod_to_equations; lia).
      generalize (d mod 64 / 4) (d / 64) (d mod 4). intros e c k.
      replace ((e - 8) * (4 * ldb)) with (4 * (e * ldb) - 32 * ldb) by ring.
      replace (4 * (e * ldb + c)) with (4 * (e * ldb) + 4 * c) by ring.
      generalize (e * ldb). intros t. solve_wrap.
    + assert (Hm : d mod 64 < 32) by (Z.div_mod_to_equations; lia).
      replace (d mod 64 <? 32) with true by (symmetry; apply Z.ltb_lt; lia).
      destruct (Z.ltb_spec d 256); simpl andb; cbv iota; [|reflexivity].
      apply load_byte_ext. rewrite wrap64_scaled. f_equal. ring.
    + assert (Hlt : 256 <= d) by (Z.div_mod_to_equations; lia).
      replace (d <? 256) with false by (symmetry; apply Z.ltb_ge; lia).
      reflexivity.
    + replace (d <? 256) with false by (symmetry; apply Z.ltb_ge; lia).
      reflexivity.
Qed.

Lemma Zseq_In i n : 0 <= i < Z.of_nat n -> In i (Zseq n).
Proof.
  intros H. unfold Zseq. apply in_map_iff. exists (Z.to_nat i).
  split; [lia|]. apply in_seq. lia.
Qed.

Lemma In_Zseq i n : In i (Zseq n) -> 0 <= i < Z.of_nat n.
Proof.
  unfold Zseq. intros H. apply in_map_iff in H as (k & <- & Hk).
  apply in_seq in Hk. lia.
Qed.

Lemma nth_map_Zseq {A} (f : Z -> A) d n i :
  0 <= i < Z.of_nat n -> nth (Z.to_nat i) (map f (Zseq n)) d = f i.
Proof.
  intros H. unfold Zseq. rewrite map_map.
  rewrite (nth_indep _ d (f (Z.of_nat 0))) by (rewrite length_map, length_seq; lia).
  rewrite (map_nth (fun k => f (Z.of_nat k)) (seq 0 n) 0%nat).
  rewrite seq_nth by lia. f_equal. lia.
Qed.

Lemma wrap64_small_eq z v : 0 <= v < 2 ^ 64 -> z = v -> wrap64 z = v.
Proof. intros Hv ->. apply wrap64_small, Hv. Qed.

(** Byte [k] of element [(r, c)] ends up at byte offset
    [4 * (16c + r) + k] of the packed buffer. *)
Lemma pack_byte up s r c k :
  window_disjoint (G s a1) (G s a2) (G s a0) ->
  0 <= r < 16 -> 0 <= c < 4 -> 0 <= k < 4 ->
  load_byte (M (run up MlasSgemmTransposePackB16x4Lasx s))
            (G s a0 + 4 * pack_index r c + k) =
  load_byte (M s) (G s a1 + 4 * (r * G s a2 + c) + k).
Proof.
  intros Hdis Hr Hc Hk. rewrite kernel_read. cbv zeta.
  specialize (Hdis r c k Hr Hc Hk).
  generalize dependent (G s a0). generalize (G s a1) (G s a2) (M s).
  intros B ldb m D Hdis. unfold pack_index.
  replace (wrap64 (D + 4 * (16 * c + r) + k - D)) with (64 * c + 4 * r + k)
    by (symmetry; apply wrap64_small_eq; lia).
  replace (64 * c + 4 * r + k <? 256) with true by (symmetry; apply Z.ltb_lt; lia).
  replace ((64 * c + 4 * r + k) mod 64 / 4) with r by (Z.div_mod_to_equations; lia).
  replace ((64 * c + 4 * r + k) / 64) with c by (Z.div_mod_to_equations; lia).
  replace ((64 * c + 4 * r + k) mod 4) with k by (Z.div_mod_to_equations; lia).
  destruct (Z.ltb_spec ((64 * c + 4 * r + k) mod 64) 32) as [H|H]; [reflexivity|].
  rewrite block_read. cbv zeta.
  replace (B + 4 * (r * ldb + c) + k - (D + 0)) with (B + 4 * (r * ldb + c) + k - D) by lia.
  replace (wrap64 (B + 4 * (r * ldb + c) + k - D) <? 256) with false
    by (symmetry; apply Z.ltb_ge; lia).
  reflexivity.
Qed.

Lemma load_word_bytes m m' a a' :
  (forall k, 0 <= k < 4 -> load_byte m (a + k) = load_byte m' (a' + k)) ->
  load_word m a = load_word m' a'.
Proof.
  intros H. unfold load_word.
  rewrite <- (Z.add_0_r a) at 1. rewrite <- (Z.add_0_r a') at 1.
  rewrite (H 0), (H 1), (H 2), (H 3) by lia. reflexivity.
Qed.

Lemma pack_elem up s r c :
  window_disjoint (G s a1) (G s a2) (G s a0) ->
  0 <= r < 16 -> 0 <= c < 4 ->
  dst_elem (M (run up MlasSgemmTransposePackB16x4Lasx s)) (G s a0) (pack_index r c) =
  src_elem (M s) (G s a1) (G s a2) r c.
Proof.
  intros Hdis Hr Hc. unfold dst_elem, src_elem.
  apply load_word_bytes. intros k Hk. apply pack_byte; assumption.
Qed.

Lemma test_state_disjoint : window_disjoint 0x1000 4 0x2000.
Proof. intros r c k Hr Hc Hk. unfold wrap64. Z.div_mod_to_equations. lia. Qed.

(** C1, as stated, fails: with [cols = 4] the offset formula of the
    specification sends element [(0, 1)] to offset 4 of the packed buffer,
    where the routine has stored element [(4, 0)]. *)
Lemma spec_offset_refuted :
  window_disjoint (G test_state a1) (G test_state a2) (G test_state a0)
  /\ spec_offset 4 0 1 = 4
  /\ dst_elem (M (run keep_upper MlasSgemmTransposePackB16x4Lasx test_state))
              (G test_state a0) (spec_offset 4 0 1)
     <> src_elem (M test_state) (G test_state a1) (G test_state a2) 0 1
  /\ dst_elem (M (run keep_upper MlasSgemmTransposePackB16x4Lasx test_state))
              (G test_state a0) (spec_offset 4 0 1)
     = src_elem (M test_state) (G test_state a1) (G test_state a2) 4 0.
Proof.
  split; [exact test_state_disjoint|]. split; [reflexivity|].
  split; [vm_compute; discriminate|vm_compute; reflexivity].
Qed.

(** C1, amended.  On a destination that does not overlap the 16x4 source
    window, the routine stores every source element [(r, c)],
    [0 <= r < 16], [0 <= c < 4], at element offset [16 * c + r] of the
    packed buffer: 16 columns of 4 rows. *)
Theorem pack16x4_layout up s r c :
  window_disjoint (G s a1) (G s a2) (G s a0) ->
  0 <= r < 16 -> 0 <= c < 4 ->
  dst_elem (M (run up MlasSgemmTransposePackB16x4Lasx s)) (G s a0) (16 * c + r) =
  src_elem (M s) (G s a1) (G s a2) r c.
Proof.
  intros Hdis Hr Hc. unfold dst_elem, src_elem.
  apply load_word_bytes. intros k Hk.
  change (16 * c + r) with (pack_index r c).
  apply pack_byte; assumption.
Qed.

Lemma pack16x4_layout_witness :
  dst_elem (M (run keep_upper MlasSgemmTransposePackB16x4Lasx test_state))
           (G test_state a0) (16 * 1 + 0) =
  src_elem (M test_state) (G test_state a1) (G test_state a2) 0 1.
Proof.
  apply (pack16x4_layout keep_upper test_state 0 1).
  - exact test_state_disjoint.
  - lia.
  - lia.
Defined.

Lemma pack_index_inverse :
  (forall r c, 0 <= r < 16 -> 0 <= c < 4 ->
     0 <= pack_index r c < 64 /\ pack_index r c mod 16 = r /\ pack_index r c / 16 = c)
  /\ (forall i, 0 <= i < 64 ->
        0 <= i mod 16 < 16 /\ 0 <= i / 16 < 4 /\ pack_index (i mod 16) (i / 16) = i).
Proof.
  unfold pack_index. split.
  - intros r c Hr Hc. Z.div_mod_to_equations. lia.
  - intros i Hi. Z.div_mod_to_equations. lia.
Qed.

(** C3.  Packing moves data bit for bit: the 64 elements of the packed
    buffer are the 64 elements of the source window under the fixed
    permutation [pack_index], a bijection between the 16x4 positions and
    the 64 offsets, and the inverse permutation applied to the packed
    buffer gives back the source matrix, element for element.  (Source
    and destination are separate buffers.) *)
Theorem pack16x4_permutation up s :
  window_disjoint (G s a1) (G s a2) (G s a0) ->
  let packed := read_packed (M (run up MlasSgemmTransposePackB16x4Lasx s)) (G s a0) in
  packed = map (fun i => src_elem (M s) (G s a1) (G s a2) (i mod 16) (i / 16)) (Zseq 64)
  /\ unpack packed = read_matrix (M s) (G s a1) (G s a2)
  /\ (forall r c, 0 <= r < 16 -> 0 <= c < 4 ->
        0 <= pack_index r c < 64 /\ pack_index r c mod 16 = r /\ pack_index r c / 16 = c)
  /\ (forall i, 0 <= i < 64 ->
        0 <= i mod 16 < 16 /\ 0 <= i / 16 < 4 /\ pack_index (i mod 16) (i / 16) = i).
Proof.
  intros Hdis packed. destruct pack_index_inverse as [Hinv1 Hinv2].
  split; [|split; [|split; assumption]].
  - subst packed. unfold read_packed. apply map_ext_in. intros i Hi.
    apply In_Zseq in Hi. destruct (Hinv2 i) as (Hr & Hc & Hi'); [lia|].
    rewrite <- Hi' at 1. apply pack_elem; assumption.
  - unfold unpack, read_matrix. apply map_ext_in. intros r Hr.
    apply map_ext_in. intros c Hc. apply In_Zseq in Hr, Hc.
    destruct (Hinv1 r c) as (Hi & _); [lia|lia|].
    subst packed. unfold read_packed. rewrite nth_map_Zseq by lia.
    apply pack_elem; [assumption|lia|lia].
Qed.

Lemma pack16x4_permutation_witness :
  unpack (read_packed (M (run keep_upper MlasSgemmTransposePackB16x4Lasx test_state))
                      (G test_state a0))
  = read_matrix (M test_state) (G test_state a1) (G test_state a2).
Proof.
  exact (proj1 (proj2 (pack16x4_permutation keep_upper test_state test_state_disjoint))).
Defined.

Lemma block_store_outside m D off p L x :
  ~ (0 <= x < 2 ^ 64) -> block_store m D off p L x = m x.
Proof.
  intros Hx. unfold block_store. rewrite !store_bytes_outside by assumption.
  reflexivity.
Qed.

(** Two memories that agree on the source window give the same bytes in
    the packed buffer, whatever else they hold. *)
Lemma kernel_window_only up up' s s' i :
  G s' a0 = G s a0 -> G s' a1 = G s a1 -> G s' a2 = G s a2 ->
  (forall r c k, 0 <= r < 16 -> 0 <= c < 4 -> 0 <= k < 4 ->
     load_byte (M s') (G s a1 + 4 * (r * G s a2 + c) + k) =
     load_byte (M s) (G s a1 + 4 * (r * G s a2 + c) + k)) ->
  0 <= i < 256 ->
  load_byte (M (run up' MlasSgemmTransposePackB16x4Lasx s')) (G s a0 + i) =
  load_byte (M (run up MlasSgemmTransposePackB16x4Lasx s)) (G s a0 + i).
Proof.
  intros E0 E1 E2 Hwin Hi. rewrite !kernel_read. cbv zeta. rewrite E0, E1, E2.
  generalize dependent (M s'). generalize dependent (M s).
  generalize (G s a0) (G s a1) (G s a2). intros D B ldb m m' Hwin.
  replace (wrap64 (D + i - D)) with i by (symmetry; apply wrap64_small_eq; lia).
  replace (i <? 256) with true by (symmetry; apply Z.ltb_lt; lia).
  assert (Hr : 0 <= i mod 64 / 4 < 16) by (Z.div_mod_to_equations; lia).
  assert (Hc : 0 <= i / 64 < 4) by (Z.div_mod_to_equations; lia).
  assert (Hk : 0 <= i mod 4 < 4) by (Z.div_mod_to_equations; lia).
  destruct (Z.ltb_spec (i mod 64) 32) as [H|H]; [apply Hwin; assumption|].
  rewrite !block_read. cbv zeta.
  set (y := B + 4 * (i mod 64 / 4 * ldb + i / 64) + i mod 4).
  pose proof (wrap64_range (y - (D + 0))) as R.
  generalize dependent (wrap64 (y - (D + 0))). intros d R.
  destruct (Z.ltb_spec d 256) as [H1|H1];
    destruct (Z.ltb_spec (d mod 64) 32) as [H2|H2]; simpl andb; cbv iota;
    try (subst y; apply Hwin; assumption).
  rewrite (load_byte_ext m' _ (B + 4 * (d mod 64 / 4 * ldb + d / 64) + d mod 4)),
          (load_byte_ext m _ (B + 4 * (d mod 64 / 4 * ldb + d / 64) + d mod 4)).
  - apply Hwin; Z.div_mod_to_equations; lia.
  - rewrite wrap64_scaled. f_equal. ring.
  - rewrite wrap64_scaled. f_equal. ring.
Qed.

Lemma kernel_frame up s x :
  ~ (0 <= x < 2 ^ 64 /\ wrap64 (x - G s a0) < 256) ->
  M (run up MlasSgemmTransposePackB16x4Lasx s) x = M s x.
Proof.
  intros Hx.
  destruct (Z.le_gt_cases 0 x) as [H0|H0]; [destruct (Z.lt_ge_cases x (2 ^ 64)) as [H1|H1]|].
  - assert (Hd : 256 <= wrap64 (x - G s a0)) by lia.
    pose proof (kernel_read up s x) as K. cbv zeta in K.
    replace (wrap64 (x - G s a0) <? 256) with false in K
      by (symmetry; apply Z.ltb_ge; lia).
    unfold load_byte in K. rewrite (wrap64_small x) in K by lia. exact K.
  - rewrite kernel_mem, !block_store_outside by lia. reflexivity.
  - rewrite kernel_mem, !block_store_outside by lia. reflexivity.
Qed.

(** C5.  The routine writes only the 256 bytes from the destination
    address on, and what it writes there depends only on the bytes of
    the 16x4 source window: a second memory that agrees with the first on
    the window, whatever it holds elsewhere (columns beyond 4 of a wider
    matrix included), gives the same packed bytes. *)
Theorem pack16x4_frame up up' s s' :
  G s' a0 = G s a0 -> G s' a1 = G s a1 -> G s' a2 = G s a2 ->
  (forall r c k, 0 <= r < 16 -> 0 <= c < 4 -> 0 <= k < 4 ->
     load_byte (M s') (G s a1 + 4 * (r * G s a2 + c) + k) =
     load_byte (M s) (G s a1 + 4 * (r * G s a2 + c) + k)) ->
  (forall x, ~ (0 <= x < 2 ^ 64 /\ wrap64 (x - G s a0) < 256) ->
     M (run up MlasSgemmTransposePackB16x4Lasx s) x = M s x)
  /\ (forall i, 0 <= i < 256 ->
        load_byte (M (run up' MlasSgemmTransposePackB16x4Lasx s')) (G s a0 + i) =
        load_byte (M (run up MlasSgemmTransposePackB16x4Lasx s)) (G s a0 + i)).
Proof.
  intros E0 E1 E2 Hwin. split.
  - intros x Hx. apply kernel_frame, Hx.
  - intros i Hi. apply kernel_window_only; assumption.
Qed.


Lemma subview_window_agree r c k :
  0 <= r < 16 -> 0 <= c < 4 -> 0 <= k < 4 ->
  load_byte (M (subview_state x00))
            (G (subview_state xff) a1 + 4 * (r * G (subview_state xff) a2 + c) + k) =
  load_byte (M (subview_state xff))
            (G (subview_state xff) a1 + 4 * (r * G (subview_state xff) a2 + c) + k).
Proof.
  intros Hr Hc Hk. cbn [subview_state G M test_regs]. unfold load_byte, subview_mem.
  rewrite wrap64_small by lia.
  replace ((4096 <=? 4096 + 4 * (r * 6 + c) + k)
           && (4096 + 4 * (r * 6 + c) + k <? 4096 + 16 * 24)
           && ((4096 + 4 * (r * 6 + c) + k - 4096) mod 24 <? 16)) with true; [reflexivity|].
  symmetry. rewrite !andb_true_iff, Z.leb_le, !Z.ltb_lt.
  Z.div_mod_to_equations. lia.
Qed.

Lemma pack16x4_frame_witness :
  (forall x, ~ (0 <= x < 2 ^ 64 /\ wrap64 (x - G (subview_state xff) a0) < 256) ->
     M (run keep_upper MlasSgemmTransposePackB16x4Lasx (subview_state xff)) x =
     M (subview_state xff) x)
  /\ (forall i, 0 <= i < 256 ->
        load_byte (M (run keep_upper MlasSgemmTransposePackB16x4Lasx (subview_state x00)))
                  (G (subview_state xff) a0 + i) =
        load_byte (M (run keep_upper MlasSgemmTransposePackB16x4Lasx (subview_state xff)))
                  (G (subview_state xff) a0 + i)).
Proof.
  apply (pack16x4_frame keep_upper keep_upper (subview_state xff) (subview_state x00)).
  - reflexivity.
  - reflexivity.
  - reflexivity.
  - exact subview_window_agree.
Defined.

(** The packed buffer of the test matrix (element [(i, j)] holds
    [4i + j]), low byte of each element: column 0 of the 16 rows, then
    column 1, and so on. *)
Example test_matrix_packed :
  map (fun w => Byte.to_N (b0 w))
      (read_packed (M (run keep_upper MlasSgemmTransposePackB16x4Lasx test_state))
                   (G test_state a0))
  = map (fun i => Z.to_N (4 * (i mod 16) + i / 16)) (Zseq 64).
Proof. vm_compute. reflexivity. Qed.

(* ===================================================================== *)
(** ** Part IV: device selection, proved                                  *)
(* ===================================================================== *)

Import Nnapi.

Lemma to_int32_small z : - 2 ^ 31 <= z < 2 ^ 31 -> to_int32 z = z.
Proof. intros H. unfold to_int32. rewrite Z.mod_small; lia. Qed.

Lemma to_int32_range z : - 2 ^ 31 <= to_int32 z < 2 ^ 31.
Proof.
  unfold to_int32. pose proof (Z.mod_pos_bound (z + 2 ^ 31) (2 ^ 32)). lia.
Qed.

Lemma runtime_level_range api h :
  - 2 ^ 31 <= GetNNAPIRuntimeFeatureLevel api h < 2 ^ 31.
Proof.
  unfold GetNNAPIRuntimeFeatureLevel. destruct api as [lvl|].
  - cbv zeta. destruct (to_int32 lvl <? __ANDROID_API_S__); apply to_int32_range.
  - apply to_int32_range.
Qed.

(** *** The feature-level cap *)

Lemma fold_max_comm l : forall x a,
  fold_right (fun d acc => Z.max (feature_level d) acc) (Z.max x a) l =
  Z.max x (fold_right (fun d acc => Z.max (feature_level d) acc) a l).
Proof. induction l as [|d l IH]; intros x a; simpl; [reflexivity|]. rewrite IH. lia. Qed.

Lemma fold_left_max l : forall a,
  fold_left (fun acc d => Z.max (feature_level d) acc) l a =
  fold_right (fun d acc => Z.max (feature_level d) acc) a l.
Proof.
  induction l as [|d l IH]; intros a; simpl; [reflexivity|].
  rewrite IH. apply fold_max_comm.
Qed.

Lemma devices_feature_level_eq l :
  fold_left (fun acc d => Z.max (feature_level d) acc) l (-1) = max_feature_level l.
Proof. apply fold_left_max. Qed.

Lemma max_feature_level_ge l : -1 <= max_feature_level l.
Proof. induction l as [|d l IH]; simpl; lia. Qed.

Lemma max_feature_level_ub l b :
  -1 <= b -> Forall (fun d => feature_level d <= b) l -> max_feature_level l <= b.
Proof.
  intros Hb H. induction H as [|d l Hd _ IH]; simpl; lia.
Qed.

Lemma max_feature_level_In l d : In d l -> feature_level d <= max_feature_level l.
Proof.
  induction l as [|e l IH]; simpl; intros H; [contradiction|].
  destruct H as [->|H]; [lia|]. specialize (IH H). lia.
Qed.

(** The level the function returns, by cases on the devices' maximum. *)
Lemma feature_level_cases api h devs :
  GetDeviceFeatureLevelInternal api h devs =
  if (0 <? max_feature_level devs)
     && (max_feature_level devs <? GetNNAPIRuntimeFeatureLevel api h)
  then max_feature_level devs
  else GetNNAPIRuntimeFeatureLevel api h.
Proof.
  unfold GetDeviceFeatureLevelInternal. cbv zeta. rewrite devices_feature_level_eq.
  destruct (Z.ltb_spec 0 (max_feature_level devs)) as [H0|H0]; [|reflexivity].
  destruct (Z.ltb_spec (max_feature_level devs) (GetNNAPIRuntimeFeatureLevel api h))
    as [H1|H1]; [|reflexivity].
  simpl andb. cbv iota. apply to_int32_small.
  pose proof (runtime_level_range api h). lia.
Qed.

(** *** One iteration of the loop *)

Lemma ok_queries_ok h i : queries_ok h i -> Forall ok_event (ok_queries h i).
Proof.
  intros (H1 & H2 & H3 & H4). unfold ok_queries.
  repeat constructor; assumption.
Qed.

Lemma selected_spec opt d :
  (is_CPU_DISABLED opt && is_cpu d) || (is_CPU_ONLY opt && negb (is_cpu d)) =
  negb (selected opt d).
Proof. unfold selected. rewrite negb_involutive. reflexivity. Qed.

Lemma device_loop_step h opt n i cpu w :
  queries_ok h i ->
  device_loop h opt (S n) i cpu w =
  if selected opt (device_at h i)
  then device_loop h opt n (i + 1)
         (if is_cpu (device_at h i) then to_int32 (Z.of_nat (length (devices w))) else cpu)
         (mkWorld (devices w ++ [device_at h i]) (log w ++ ok_queries h i))
  else device_loop h opt n (i + 1) cpu (mkWorld (devices w) (log w ++ ok_queries h i)).
Proof.
  intros (H1 & H2 & H3 & H4).
  cbn [device_loop]. unfold RETURN_STATUS_ON_ERROR_WITH_NOTE, call, bind, ret.
  cbn [fst snd devices log].
  rewrite H1, Z.eqb_refl. cbv beta iota.
  rewrite H2, Z.eqb_refl. cbv beta iota.
  rewrite H3, Z.eqb_refl. cbv beta iota.
  rewrite H4, Z.eqb_refl. cbv beta iota.
  cbn [devices log].
  change (snd (ANeuralNetworksDevice_getType h (snd (ANeuralNetworks_getDevice h i)))
          =? ANEURALNETWORKS_DEVICE_CPU) with (is_cpu (device_at h i)).
  rewrite selected_spec.
  assert (E : (((log w ++ [(Device i, ANEURALNETWORKS_NO_ERROR)])
                ++ [(DeviceName i, ANEURALNETWORKS_NO_ERROR)])
               ++ [(DeviceType i, ANEURALNETWORKS_NO_ERROR)])
              ++ [(DeviceFeatureLevel i, ANEURALNETWORKS_NO_ERROR)]
              = log w ++ ok_queries h i).
  { unfold ok_queries. cbv zeta. rewrite H1, H2, H3, H4.
    rewrite <- !app_assoc. reflexivity. }
  rewrite E.
  destruct (selected opt (device_at h i)); cbn [negb]; [|reflexivity].
  unfold size, push_back. cbn [devices log]. reflexivity.
Qed.

Lemma index_from_here i q rc : query_index q = Some i -> index_from i (q, rc).
Proof. intros H k Hk. cbn [fst] in Hk. rewrite H in Hk. injection Hk as <-. lia. Qed.

Lemma index_from_le i j e : i <= j -> index_from j e -> index_from i e.
Proof. intros Hij H k Hk. specialize (H k Hk). lia. Qed.

Lemma ok_queries_index h i : Forall (index_from i) (ok_queries h i).
Proof. unfold ok_queries. repeat constructor; apply index_from_here; reflexivity. Qed.

Ltac idx_here := cbn [app]; repeat constructor; apply index_from_here; reflexivity.

Lemma queries_ok_dec h i : {queries_ok h i} + {~ queries_ok h i}.
Proof.
  unfold queries_ok. cbv zeta.
  destruct (Z.eq_dec (fst (ANeuralNetworks_getDevice h i)) ANEURALNETWORKS_NO_ERROR);
  destruct (Z.eq_dec (fst (ANeuralNetworksDevice_getName h
              (snd (ANeuralNetworks_getDevice h i)))) ANEURALNETWORKS_NO_ERROR);
  destruct (Z.eq_dec (fst (ANeuralNetworksDevice_getType h
              (snd (ANeuralNetworks_getDevice h i)))) ANEURALNETWORKS_NO_ERROR);
  destruct (Z.eq_dec (fst (ANeuralNetworksDevice_getFeatureLevel h
              (snd (ANeuralNetworks_getDevice h i)))) ANEURALNETWORKS_NO_ERROR);
  tauto.
Qed.

(** A failing query ends the iteration at once: the vector is left as it
    is and the status carries the code and the note of that query. *)
Lemma device_loop_step_fail h opt n i cpu w :
  ~ queries_ok h i ->
  exists l0 q rc,
    device_loop h opt (S n) i cpu w =
      (Return (FAIL rc (query_note q)), mkWorld (devices w) (log w ++ l0 ++ [(q, rc)]))
    /\ Forall ok_event l0 /\ rc <> ANEURALNETWORKS_NO_ERROR
    /\ Forall (index_from i) (l0 ++ [(q, rc)]).
Proof.
  intros Hno. cbn [device_loop].
  unfold RETURN_STATUS_ON_ERROR_WITH_NOTE, call, bind, ret, return_.
  cbn [fst snd devices log].
  destruct (Z.eqb_spec (fst (ANeuralNetworks_getDevice h i)) ANEURALNETWORKS_NO_ERROR)
    as [H1|H1].
  2:{ exists [], (Device i), (fst (ANeuralNetworks_getDevice h i)).
      split; [reflexivity|]. split; [constructor|]. split; [assumption|idx_here]. }
  cbv beta iota. cbn [fst snd devices log].
  destruct (Z.eqb_spec (fst (ANeuralNetworksDevice_getName h
              (snd (ANeuralNetworks_getDevice h i)))) ANEURALNETWORKS_NO_ERROR) as [H2|H2].
  2:{ exists [(Device i, fst (ANeuralNetworks_getDevice h i))], (DeviceName i),
        (fst (ANeuralNetworksDevice_getName h (snd (ANeuralNetworks_getDevice h i)))).
      split; [rewrite <- app_assoc; reflexivity|].
      split; [repeat constructor; assumption|]. split; [assumption|idx_here]. }
  cbv beta iota. cbn [fst snd devices log].
  destruct (Z.eqb_spec (fst (ANeuralNetworksDevice_getType h
              (snd (ANeuralNetworks_getDevice h i)))) ANEURALNETWORKS_NO_ERROR) as [H3|H3].
  2:{ exists [(Device i, fst (ANeuralNetworks_getDevice h i));
              (DeviceName i, fst (ANeuralNetworksDevice_getName h
                                    (snd (ANeuralNetworks_getDevice h i))))],
        (DeviceType i),
        (fst (ANeuralNetworksDevice_getType h (snd (ANeuralNetworks_getDevice h i)))).
      split; [rewrite <- !app_assoc; reflexivity|].
      split; [repeat constructor; assumption|]. split; [assumption|idx_here]. }
  cbv beta iota. cbn [fst snd devices log].
  destruct (Z.eqb_spec (fst (ANeuralNetworksDevice_getFeatureLevel h
              (snd (ANeuralNetworks_getDevice h i)))) ANEURALNETWORKS_NO_ERROR) as [H4|H4].
  2:{ exists [(Device i, fst (ANeuralNetworks_getDevice h i));
              (DeviceName i, fst (ANeuralNetworksDevice_getName h
                                    (snd (ANeuralNetworks_getDevice h i))));
              (DeviceType i, fst (ANeuralNetworksDevice_getType h
                                    (snd (ANeuralNetworks_getDevice h i))))],
        (DeviceFeatureLevel i),
        (fst (ANeuralNetworksDevice_getFeatureLevel h (snd (ANeuralNetworks_getDevice h i)))).
      split; [rewrite <- !app_assoc; reflexivity|].
      split; [repeat constructor; assumption|]. split; [assumption|idx_here]. }
  exfalso. apply Hno. repeat split; assumption.
Qed.

(** *** The whole loop *)


Lemma indices_snoc n : forall i,
  indices i (S n) = indices i n ++ [i + Z.of_nat n].
Proof.
  induction n as [|n IH]; intros i.
  - cbn. f_equal. lia.
  - change (indices i (S (S n))) with (i :: indices (i + 1) (S n)).
    rewrite IH. cbn [indices app]. do 2 f_equal. f_equal. lia.
Qed.

Lemma In_indices n : forall i j, In j (indices i n) <-> i <= j < i + Z.of_nat n.
Proof.
  induction n as [|n IH]; intros i j; cbn [indices In].
  - lia.
  - rewrite IH. lia.
Qed.


(** *** [GetTargetDevices], by cases *)

Lemma GetTargetDevices_gate api h opt devs :
  GetNNAPIRuntimeFeatureLevel api h < ANEURALNETWORKS_FEATURE_LEVEL_3 ->
  GetTargetDevices api h opt devs = (OK, devs, []).
Proof.
  intros H. unfold GetTargetDevices, GetTargetDevices_body.
  apply Z.ltb_lt in H. rewrite H. reflexivity.
Qed.

Lemma GetTargetDevices_count_fail api h opt devs :
  ANEURALNETWORKS_FEATURE_LEVEL_3 <= GetNNAPIRuntimeFeatureLevel api h ->
  fst (ANeuralNetworks_getDeviceCount h) <> ANEURALNETWORKS_NO_ERROR ->
  GetTargetDevices api h opt devs =
  (FAIL (fst (ANeuralNetworks_getDeviceCount h)) (query_note DeviceCount), devs,
   [(DeviceCount, fst (ANeuralNetworks_getDeviceCount h))]).
Proof.
  intros Hlvl Hrc. unfold GetTargetDevices, GetTargetDevices_body.
  apply Z.ltb_ge in Hlvl. rewrite Hlvl.
  unfold RETURN_STATUS_ON_ERROR_WITH_NOTE, call, bind, ret, return_.
  cbn [fst snd devices log].
  apply Z.eqb_neq in Hrc. rewrite Hrc. reflexivity.
Qed.

Lemma GetTargetDevices_loop api h opt devs :
  ANEURALNETWORKS_FEATURE_LEVEL_3 <= GetNNAPIRuntimeFeatureLevel api h ->
  fst (ANeuralNetworks_getDeviceCount h) = ANEURALNETWORKS_NO_ERROR ->
  GetTargetDevices api h opt devs =
  match device_loop h opt (Z.to_nat (to_uint32 (snd (ANeuralNetworks_getDeviceCount h))))
                    0 (-1) (mkWorld devs [(DeviceCount, ANEURALNETWORKS_NO_ERROR)]) with
  | (Continue cpu_index, w) => (OK, cpu_last cpu_index (devices w), log w)
  | (Return st, w) => (st, devices w, log w)
  end.
Proof.
  intros Hlvl Hrc. unfold GetTargetDevices, GetTargetDevices_body.
  apply Z.ltb_ge in Hlvl. rewrite Hlvl.
  unfold RETURN_STATUS_ON_ERROR_WITH_NOTE at 1. unfold call, bind at 1 2, ret.
  cbn [fst snd devices log app].
  rewrite Hrc, Z.eqb_refl. cbv beta iota.
  unfold bind at 1.
  destruct (device_loop h opt _ 0 (-1) _) as [[cpu|st] w]; [|reflexivity].
  unfold bind, size, swap, ret, return_, cpu_last. cbv zeta.
  destruct (negb (cpu =? -1) && negb (cpu =? to_int32 (Z.of_nat (length (devices w))) - 1));
    reflexivity.
Qed.

(** *** The note names the query *)

Lemma uint_nonnil_N n : N.to_uint n <> Decimal.Nil.
Proof.
  destruct n as [|p]; cbn; [discriminate|]. apply DecimalPos.Unsigned.to_uint_nonnil.
Qed.

Lemma to_string_inj i j : 0 <= i -> 0 <= j -> to_string i = to_string j -> i = j.
Proof.
  intros Hi Hj H. unfold to_string in H.
  assert (E : Some (N.to_uint (Z.to_N i)) = Some (N.to_uint (Z.to_N j))).
  { rewrite <- (NilZero.usu (N.to_uint (Z.to_N i))) by apply uint_nonnil_N.
    rewrite <- (NilZero.usu (N.to_uint (Z.to_N j))) by apply uint_nonnil_N.
    rewrite H. reflexivity. }
  injection E as E. apply DecimalN.Unsigned.to_uint_inj in E. lia.
Qed.

Lemma all_digits_uint d : all_digits (NilEmpty.string_of_uint d) = true.
Proof. induction d; cbn [NilEmpty.string_of_uint all_digits]; try rewrite IHd; reflexivity. Qed.

Lemma to_string_digits i :
  all_digits (to_string i) = true /\ to_string i <> EmptyString.
Proof.
  unfold to_string. pose proof (uint_nonnil_N (Z.to_N i)) as Hn.
  destruct (N.to_uint (Z.to_N i)) as [|d|d|d|d|d|d|d|d|d|d] eqn:E;
    [contradiction|..];
    (split; [apply (all_digits_uint (_ d))|discriminate]).
Qed.

(** A run of digits followed by text that starts with a letter splits in
    one way only. *)
Lemma digits_split d1 : forall d2 a1 s1 a2 s2,
  all_digits d1 = true -> all_digits d2 = true ->
  is_digit a1 = false -> is_digit a2 = false ->
  d1 +:+ String a1 s1 = d2 +:+ String a2 s2 ->
  d1 = d2 /\ String a1 s1 = String a2 s2.
Proof.
  induction d1 as [|c1 d1 IH]; intros d2 a1 s1 a2 s2 H1 H2 Ha1 Ha2 E.
  - destruct d2 as [|c2 d2]; cbn in E.
    + split; [reflexivity|exact E].
    + injection E as -> _. cbn in H2. rewrite Ha1 in H2. discriminate.
  - destruct d2 as [|c2 d2]; cbn in E.
    + injection E as -> _. cbn in H1. rewrite Ha2 in H1. discriminate.
    + injection E as -> E. cbn in H1, H2.
      apply andb_prop in H1 as [_ H1]. apply andb_prop in H2 as [_ H2].
      destruct (IH d2 a1 s1 a2 s2 H1 H2 Ha1 Ha2 E) as [-> Es].
      split; [reflexivity|exact Es].
Qed.

Lemma indexed_note_inj i j a1 s1 a2 s2 :
  0 <= i -> 0 <= j -> is_digit a1 = false -> is_digit a2 = false ->
  "Getting " +:+ to_string i +:+ String a1 s1 = "Getting " +:+ to_string j +:+ String a2 s2 ->
  i = j /\ String a1 s1 = String a2 s2.
Proof.
  intros Hi Hj Ha1 Ha2 E. cbn [String.append] in E.
  injection E as E.
  destruct (to_string_digits i) as [Di _]. destruct (to_string_digits j) as [Dj _].
  destruct (digits_split _ _ _ _ _ _ Di Dj Ha1 Ha2 E) as [Es Et].
  split; [apply to_string_inj; assumption|exact Et].
Qed.

Lemma count_note_not_indexed i s :
  query_note DeviceCount <> "Getting " +:+ to_string i +:+ s.
Proof.
  cbn [query_note String.append]. intros E. injection E as E.
  destruct (to_string_digits i) as [Di Dn].
  destruct (to_string i) as [|c t]; [contradiction|].
  cbn in E. injection E as <- _. cbn in Di. discriminate.
Qed.

(** Two queries on device indices (which are never negative) with the
    same note are the same query. *)
Lemma query_note_inj q q' :
  (forall i, query_index q = Some i -> 0 <= i) ->
  (forall i, query_index q' = Some i -> 0 <= i) ->
  query_note q = query_note q' -> q = q'.
Proof.
  intros Hq Hq' E.
  destruct q as [|i|i|i|i], q' as [|j|j|j|j]; try reflexivity;
    try (exfalso; exact (count_note_not_indexed _ _ E));
    try (exfalso; symmetry in E; exact (count_note_not_indexed _ _ E));
    cbn [query_note] in E;
    (apply indexed_note_inj in E;
     [ destruct E as [-> Es]; try reflexivity; discriminate Es
     | apply Hq; reflexivity | apply Hq'; reflexivity
     | reflexivity | reflexivity ]).
Qed.

(** *** The claims on the feature level *)

Lemma cap_nil api h :
  GetDeviceFeatureLevelInternal api h [] = GetNNAPIRuntimeFeatureLevel api h.
Proof. rewrite feature_level_cases. reflexivity. Qed.


(** C10.  The cap ignores device levels that are not positive: on an empty
    list, or when every device reports a level [<= 0], the function
    returns the runtime feature level unchanged. *)
Theorem cap_ignores_nonpositive_levels api h devs :
  devs = [] \/ Forall (fun d => feature_level d <= 0) devs ->
  GetDeviceFeatureLevelInternal api h devs = GetNNAPIRuntimeFeatureLevel api h.
Proof.
  intros H. rewrite feature_level_cases.
  assert (Hmax : max_feature_level devs <= 0).
  { destruct H as [->|H]; [cbn; lia|]. apply max_feature_level_ub; [lia|assumption]. }
  replace (0 <? max_feature_level devs) with false by (symmetry; apply Z.ltb_ge; lia).
  reflexivity.
Qed.

Lemma cap_ignores_nonpositive_levels_witness :
  GetDeviceFeatureLevelInternal None (test_handle 30 0)
    [mkDevice 7 "off" 4 0; mkDevice 8 "bad" 4 (-3)]
  = GetNNAPIRuntimeFeatureLevel None (test_handle 30 0).
Proof.
  apply (cap_ignores_nonpositive_levels None (test_handle 30 0)).
  right. repeat constructor; simpl; lia.
Defined.

(** C4, as stated, fails: a device of feature level 0 on a runtime of
    level 30 leaves the level at 30, above the minimum of 30 and 0. *)
Lemma effective_level_above_min :
  let devs := [mkDevice 7 "off" 4 0] in
  let h := test_handle 30 0 in
  devs <> []
  /\ GetNNAPIRuntimeFeatureLevel None h = 30
  /\ (In 0 (map feature_level devs) /\ Forall (fun d => feature_level d <= 0) devs)
  /\ GetNNAPIEffectiveFeatureLevel None h devs = 30
  /\ GetDeviceFeatureLevelInternal None h devs = 30
  /\ ~ (GetNNAPIEffectiveFeatureLevel None h devs
        <= Z.min (GetNNAPIRuntimeFeatureLevel None h) 0).
Proof.
  cbv zeta. split; [discriminate|]. split; [reflexivity|].
  split; [split; [left; reflexivity|repeat constructor; simpl; lia]|].
  split; [reflexivity|]. split; [reflexivity|].
  vm_compute. intros H. apply H. reflexivity.
Qed.

(** C4, amended.  Whatever the devices, both functions never return
    more than the runtime's level; and when the maximum feature level
    [mx] across the given devices is positive, both return the minimum
    of the runtime's level and [mx]. *)
Theorem effective_level_is_min api h devs :
  GetNNAPIEffectiveFeatureLevel api h devs <= GetNNAPIRuntimeFeatureLevel api h
  /\ GetDeviceFeatureLevelInternal api h devs <= GetNNAPIRuntimeFeatureLevel api h
  /\ (forall mx,
        In mx (map feature_level devs) ->
        Forall (fun d => feature_level d <= mx) devs ->
        0 < mx ->
        GetNNAPIEffectiveFeatureLevel api h devs
          = Z.min (GetNNAPIRuntimeFeatureLevel api h) mx
        /\ GetDeviceFeatureLevelInternal api h devs
           = Z.min (GetNNAPIRuntimeFeatureLevel api h) mx).
Proof.
  unfold GetNNAPIEffectiveFeatureLevel. rewrite feature_level_cases.
  assert (Hle : (if (0 <? max_feature_level devs)
                    && (max_feature_level devs <? GetNNAPIRuntimeFeatureLevel api h)
                 then max_feature_level devs
                 else GetNNAPIRuntimeFeatureLevel api h)
                <= GetNNAPIRuntimeFeatureLevel api h).
  { destruct (Z.ltb_spec (max_feature_level devs) (GetNNAPIRuntimeFeatureLevel api h));
      destruct (0 <? max_feature_level devs); simpl andb; cbv iota; lia. }
  split; [exact Hle|]. split; [exact Hle|].
  intros mx Hin Hub Hpos.
  assert (Hmx : max_feature_level devs = mx).
  { apply Z.le_antisymm.
    - apply max_feature_level_ub; [lia|assumption].
    - apply in_map_iff in Hin as (d & <- & Hd). apply max_feature_level_In, Hd. }
  rewrite Hmx.
  replace (0 <? mx) with true by (symmetry; apply Z.ltb_lt; lia).
  destruct (Z.ltb_spec mx (GetNNAPIRuntimeFeatureLevel api h)); simpl andb; cbv iota; lia.
Qed.

(** Two accelerators of feature level 29 on a runtime of level 30. *)
Lemma effective_level_is_min_witness :
  GetNNAPIEffectiveFeatureLevel None (test_handle 30 0) [test_acc 101; test_acc 102]
    <= GetNNAPIRuntimeFeatureLevel None (test_handle 30 0)
  /\ GetNNAPIEffectiveFeatureLevel None (test_handle 30 0) [test_acc 101; test_acc 102]
     = Z.min (GetNNAPIRuntimeFeatureLevel None (test_handle 30 0)) 29
  /\ GetDeviceFeatureLevelInternal None (test_handle 30 0) [test_acc 101; test_acc 102]
     = Z.min (GetNNAPIRuntimeFeatureLevel None (test_handle 30 0)) 29.
Proof.
  destruct (effective_level_is_min None (test_handle 30 0) [test_acc 101; test_acc 102])
    as (Hle & _ & Hmin).
  split; [exact Hle|]. apply Hmin.
  - left. reflexivity.
  - repeat constructor; simpl; lia.
  - lia.
Defined.

(** *** The claims on [GetTargetDevices] *)

(** *** The queries issued, against the handle's answers *)

Lemma ok_queries_answers h i :
  Forall (fun e => snd e = answer h (fst e) /\ query_index (fst e) = Some i)
         (ok_queries h i).
Proof. unfold ok_queries. repeat constructor. Qed.

Lemma queries_ok_answers h i :
  queries_ok h i <->
  (forall q, query_index q = Some i -> answer h q = ANEURALNETWORKS_NO_ERROR).
Proof.
  split.
  - intros (H1 & H2 & H3 & H4) q Hq.
    destruct q as [|j|j|j|j]; cbn [query_index] in Hq; try discriminate;
      injection Hq as ->; assumption.
  - intros H. split; [exact (H (Device i) eq_refl)|].
    split; [exact (H (DeviceName i) eq_refl)|].
    split; [exact (H (DeviceType i) eq_refl)|exact (H (DeviceFeatureLevel i) eq_refl)].
Qed.

(** The iteration that stops: the queries before the failing one
    succeeded, and the status carries the handle's code for it. *)
Lemma device_loop_step_stops h opt n i cpu w :
  ~ queries_ok h i ->
  exists l0 q,
    device_loop h opt (S n) i cpu w =
      (Return (FAIL (answer h q) (query_note q)),
       mkWorld (devices w) (log w ++ l0 ++ [(q, answer h q)]))
    /\ Forall ok_event l0 /\ answer h q <> ANEURALNETWORKS_NO_ERROR
    /\ Forall (fun e => snd e = answer h (fst e) /\ query_index (fst e) = Some i)
              (l0 ++ [(q, answer h q)]).
Proof.
  intros Hno. cbn [device_loop].
  unfold RETURN_STATUS_ON_ERROR_WITH_NOTE, call, bind, ret, return_.
  cbn [fst snd devices log].
  destruct (Z.eqb_spec (fst (ANeuralNetworks_getDevice h i)) ANEURALNETWORKS_NO_ERROR)
    as [H1|H1].
  2:{ exists [], (Device i).
      split; [reflexivity|]. split; [constructor|]. split; [assumption|].
      repeat constructor. }
  cbv beta iota. cbn [fst snd devices log].
  destruct (Z.eqb_spec (fst (ANeuralNetworksDevice_getName h
              (snd (ANeuralNetworks_getDevice h i)))) ANEURALNETWORKS_NO_ERROR) as [H2|H2].
  2:{ exists [(Device i, fst (ANeuralNetworks_getDevice h i))], (DeviceName i).
      split; [rewrite <- app_assoc; reflexivity|].
      split; [repeat constructor; assumption|]. split; [assumption|].
      repeat constructor. }
  cbv beta iota. cbn [fst snd devices log].
  destruct (Z.eqb_spec (fst (ANeuralNetworksDevice_getType h
              (snd (ANeuralNetworks_getDevice h i)))) ANEURALNETWORKS_NO_ERROR) as [H3|H3].
  2:{ exists [(Device i, fst (ANeuralNetworks_getDevice h i));
              (DeviceName i, fst (ANeuralNetworksDevice_getName h
                                    (snd (ANeuralNetworks_getDevice h i))))],
        (DeviceType i).
      split; [rewrite <- !app_assoc; reflexivity|].
      split; [repeat constructor; assumption|]. split; [assumption|].
      repeat constructor. }
  cbv beta iota. cbn [fst snd devices log].
  destruct (Z.eqb_spec (fst (ANeuralNetworksDevice_getFeatureLevel h
              (snd (ANeuralNetworks_getDevice h i)))) ANEURALNETWORKS_NO_ERROR) as [H4|H4].
  2:{ exists [(Device i, fst (ANeuralNetworks_getDevice h i));
              (DeviceName i, fst (ANeuralNetworksDevice_getName h
                                    (snd (ANeuralNetworks_getDevice h i))));
              (DeviceType i, fst (ANeuralNetworksDevice_getType h
                                    (snd (ANeuralNetworks_getDevice h i))))],
        (DeviceFeatureLevel i).
      split; [rewrite <- !app_assoc; reflexivity|].
      split; [repeat constructor; assumption|]. split; [assumption|].
      repeat constructor. }
  exfalso. apply Hno. repeat split; assumption.
Qed.

(** The loop against the handle: every query it issues is one on an
    index of its range, logged with the handle's code; it goes through
    only if the handle answers every query of the range with no error,
    and otherwise stops at the first that fails. *)
Lemma device_loop_answers h opt n : forall i cpu w,
  exists r w' lg,
    device_loop h opt n i cpu w = (r, w') /\ log w' = log w ++ lg
    /\ Forall (fun e => snd e = answer h (fst e)
                        /\ exists k, query_index (fst e) = Some k
                                     /\ i <= k < i + Z.of_nat n) lg
    /\ match r with
       | Continue _ =>
           forall q k, query_index q = Some k -> i <= k < i + Z.of_nat n ->
                       answer h q = ANEURALNETWORKS_NO_ERROR
       | Return st =>
           exists l0 q, lg = l0 ++ [(q, answer h q)] /\ Forall ok_event l0
                        /\ answer h q <> ANEURALNETWORKS_NO_ERROR
                        /\ st = FAIL (answer h q) (query_note q)
       end.
Proof.
  induction n as [|n IH]; intros i cpu w.
  - exists (Continue cpu), w, []. cbn [device_loop]. unfold ret. rewrite app_nil_r.
    split; [reflexivity|]. split; [reflexivity|]. split; [constructor|].
    intros q k _ Hk. lia.
  - destruct (queries_ok_dec h i) as [Hi|Hi].
    + rewrite device_loop_step by assumption.
      assert (Hrange : forall lg,
                Forall (fun e => snd e = answer h (fst e)
                                 /\ exists k, query_index (fst e) = Some k
                                              /\ i + 1 <= k < i + 1 + Z.of_nat n) lg ->
                Forall (fun e => snd e = answer h (fst e)
                                 /\ exists k, query_index (fst e) = Some k
                                              /\ i <= k < i + Z.of_nat (S n))
                       (ok_queries h i ++ lg)).
      { intros lg Hlg. apply Forall_app. split.
        - eapply Forall_impl; [apply ok_queries_answers|].
          intros e [He Hq]. split; [exact He|]. exists i. split; [exact Hq|lia].
        - eapply Forall_impl; [exact Hlg|].
          intros e [He (k & Hq & Hk)]. split; [exact He|]. exists k. split; [exact Hq|lia]. }
      assert (Hthrough : forall r : Result Z,
                match r with
                | Continue _ =>
                    forall q k, query_index q = Some k -> i + 1 <= k < i + 1 + Z.of_nat n ->
                                answer h q = ANEURALNETWORKS_NO_ERROR
                | Return _ => True
                end ->
                match r with
                | Continue _ =>
                    forall q k, query_index q = Some k -> i <= k < i + Z.of_nat (S n) ->
                                answer h q = ANEURALNETWORKS_NO_ERROR
                | Return _ => True
                end).
      { intros [c|st] Hr; [|exact I]. intros q k Hq Hk.
        destruct (Z.eq_dec k i) as [->|Hne].
        - apply (proj1 (queries_ok_answers h i) Hi q Hq).
        - apply (Hr q k Hq). lia. }
      destruct (selected opt (device_at h i)).
      * destruct (IH (i + 1)
                   (if is_cpu (device_at h i) then to_int32 (Z.of_nat (length (devices w)))
                    else cpu)
                   (mkWorld (devices w ++ [device_at h i]) (log w ++ ok_queries h i)))
          as (r & w' & lg & E & Hlog & Hans & Hr).
        exists r, w', (ok_queries h i ++ lg). split; [exact E|].
        split; [rewrite Hlog; cbn [log]; rewrite <- app_assoc; reflexivity|].
        split; [apply Hrange, Hans|].
        destruct r as [c|st].
        -- apply (Hthrough (Continue c)), Hr.
        -- destruct Hr as (l0 & q & -> & Hl0 & Hrc & ->).
           exists (ok_queries h i ++ l0), q.
           split; [rewrite <- app_assoc; reflexivity|].
           split; [|split; [assumption|reflexivity]].
           apply Forall_app. split; [apply ok_queries_ok; assumption|assumption].
      * destruct (IH (i + 1) cpu (mkWorld (devices w) (log w ++ ok_queries h i)))
          as (r & w' & lg & E & Hlog & Hans & Hr).
        exists r, w', (ok_queries h i ++ lg). split; [exact E|].
        split; [rewrite Hlog; cbn [log]; rewrite <- app_assoc; reflexivity|].
        split; [apply Hrange, Hans|].
        destruct r as [c|st].
        -- apply (Hthrough (Continue c)), Hr.
        -- destruct Hr as (l0 & q & -> & Hl0 & Hrc & ->).
           exists (ok_queries h i ++ l0), q.
           split; [rewrite <- app_assoc; reflexivity|].
           split; [|split; [assumption|reflexivity]].
           apply Forall_app. split; [apply ok_queries_ok; assumption|assumption].
    + destruct (device_loop_step_stops h opt n i cpu w Hi)
        as (l0 & q & E & Hl0 & Hrc & Hans).
      exists (Return (FAIL (answer h q) (query_note q))),
             (mkWorld (devices w) (log w ++ l0 ++ [(q, answer h q)])),
             (l0 ++ [(q, answer h q)]).
      split; [exact E|]. split; [reflexivity|].
      split.
      * eapply Forall_impl; [exact Hans|].
        intros e [He Hq]. split; [exact He|]. exists i. split; [exact Hq|lia].
      * exists l0, q. split; [reflexivity|]. split; [assumption|].
        split; [assumption|reflexivity].
Qed.

Lemma Forall_not_Exists (lg : list (Query * Z)) :
  Forall ok_event lg -> ~ Exists (fun e => snd e <> ANEURALNETWORKS_NO_ERROR) lg.
Proof.
  intros HF HE. apply List.Exists_exists in HE as (e & He & Hne).
  rewrite List.Forall_forall in HF. apply Hne, HF, He.
Qed.

(** [GetTargetDevices] against the handle's answers. *)
Lemma GetTargetDevices_answers api h opt devs :
  let st := fst (fst (GetTargetDevices api h opt devs)) in
  let lg := snd (GetTargetDevices api h opt devs) in
  (IsOK st = false <->
     ANEURALNETWORKS_FEATURE_LEVEL_3 <= GetNNAPIRuntimeFeatureLevel api h
     /\ exists q, asked h q /\ answer h q <> ANEURALNETWORKS_NO_ERROR)
  /\ Forall (fun e => snd e = answer h (fst e) /\ asked h (fst e)) lg
  /\ (IsOK st = false <-> Exists (fun e => snd e <> ANEURALNETWORKS_NO_ERROR) lg)
  /\ (IsOK st = false ->
      exists l0 q,
        lg = l0 ++ [(q, answer h q)] /\ Forall ok_event l0
        /\ answer h q <> ANEURALNETWORKS_NO_ERROR
        /\ st = FAIL (answer h q) (query_note q)
        /\ (forall q', (forall k, query_index q' = Some k -> 0 <= k) ->
                       query_note q' = query_note q -> q' = q)).
Proof.
  cbv zeta.
  destruct (Z.lt_ge_cases (GetNNAPIRuntimeFeatureLevel api h) ANEURALNETWORKS_FEATURE_LEVEL_3)
    as [Hlvl|Hlvl].
  { rewrite GetTargetDevices_gate by assumption. cbn [fst snd IsOK].
    split; [split; [discriminate|intros [H _]; lia]|].
    split; [constructor|].
    split; [split; [discriminate|intros H; inversion H]|discriminate]. }
  destruct (Z.eq_dec (fst (ANeuralNetworks_getDeviceCount h)) ANEURALNETWORKS_NO_ERROR)
    as [Hrc|Hrc].
  2:{ rewrite GetTargetDevices_count_fail by assumption. cbn [fst snd IsOK].
      split.
      { split; [intros _|reflexivity]. split; [exact Hlvl|].
        exists DeviceCount. split; [exact I|exact Hrc]. }
      split; [constructor; [split; [reflexivity|exact I]|constructor]|].
      split; [split; [intros _|reflexivity]; constructor; exact Hrc|].
      intros _. exists [], DeviceCount.
      split; [reflexivity|]. split; [constructor|]. split; [exact Hrc|].
      split; [reflexivity|]. intros q' Hq' E.
      apply query_note_inj; [exact Hq'|discriminate|exact E]. }
  rewrite GetTargetDevices_loop by assumption.
  destruct (device_loop_answers h opt
              (Z.to_nat (to_uint32 (snd (ANeuralNetworks_getDeviceCount h)))) 0 (-1)
              (mkWorld devs [(DeviceCount, ANEURALNETWORKS_NO_ERROR)]))
    as (r & w' & lg & E & Hlog & Hans & Hr).
  rewrite E. cbn [log] in Hlog.
  assert (Hn : Z.of_nat (Z.to_nat (to_uint32 (snd (ANeuralNetworks_getDeviceCount h)))) =
               to_uint32 (snd (ANeuralNetworks_getDeviceCount h))).
  { apply Z2Nat.id. unfold to_uint32. apply Z.mod_pos_bound. lia. }
  rewrite Hn in Hans, Hr.
  assert (Hasked : Forall (fun e => snd e = answer h (fst e) /\ asked h (fst e)) (log w')).
  { rewrite Hlog. constructor.
    - split; [cbn [fst snd answer]; symmetry; exact Hrc|exact I].
    - eapply Forall_impl; [exact Hans|].
      intros e [He (k & Hq & Hk)]. split; [exact He|].
      unfold asked. rewrite Hq. split; [exact Hrc|lia]. }
  destruct r as [cpu|st]; cbn [fst snd IsOK].
  - split.
    { split; [discriminate|]. intros [_ (q & Hq & Hne)]. exfalso. apply Hne.
      unfold asked in Hq. destruct q as [|k|k|k|k]; cbn [query_index] in Hq;
        [exact Hrc|..];
        (match goal with |- answer h ?q = _ => apply (Hr q k eq_refl) end); lia. }
    split; [exact Hasked|].
    split; [|discriminate].
    split; [discriminate|]. intros HE. exfalso. revert HE.
    apply Forall_not_Exists. rewrite Hlog.
    constructor; [reflexivity|].
    apply List.Forall_forall. intros e He.
    rewrite List.Forall_forall in Hans. destruct (Hans e He) as [Hrc' (k & Hq & Hk)].
    unfold ok_event. rewrite Hrc'. apply (Hr _ k Hq). lia.
  - destruct Hr as (l0 & q & -> & Hl0 & Hrc' & ->). cbn [IsOK].
    assert (Hq : asked h q /\ forall k, query_index q = Some k -> 0 <= k).
    { rewrite List.Forall_forall in Hans.
      destruct (Hans (q, answer h q)) as [_ (k & Hk & Hrange)];
        [apply in_or_app; right; left; reflexivity|].
      cbn [fst] in Hk. split.
      - unfold asked. rewrite Hk. split; [exact Hrc|lia].
      - intros k' Hk'. rewrite Hk in Hk'. injection Hk' as <-. lia. }
    split.
    { split; [intros _|reflexivity]. split; [exact Hlvl|].
      exists q. split; [apply Hq|exact Hrc']. }
    split; [exact Hasked|].
    split.
    { split; [intros _|reflexivity]. rewrite Hlog.
      apply List.Exists_exists. exists (q, answer h q). split; [|exact Hrc'].
      apply in_or_app. right. apply in_or_app. right. left. reflexivity. }
    intros _. exists ((DeviceCount, ANEURALNETWORKS_NO_ERROR) :: l0), q.
    split; [rewrite Hlog; reflexivity|].
    split; [constructor; [reflexivity|assumption]|]. split; [assumption|].
    split; [reflexivity|]. intros q' Hq' E'.
    apply query_note_inj; [exact Hq'|apply Hq|exact E'].
Qed.

(** *** The name pointer *)

(** With every successful name query writing a name, the loop on
    pointers does what the loop on strings does. *)
Lemma device_loop_as_strings c opt n :
  NnapiC.names_valid c ->
  forall i cpu w,
    NnapiC.device_loop c opt n i cpu w =
    NnapiC.lift (device_loop (NnapiC.as_strings c) opt n i cpu) w.
Proof.
  intros Hv. induction n as [|n IH]; intros i cpu w; [reflexivity|].
  cbn [NnapiC.device_loop device_loop].
  unfold RETURN_STATUS_ON_ERROR_WITH_NOTE, NnapiC.bind_throwing, NnapiC.lift,
    NnapiC.std_string, bind, call, ret, return_, size, push_back.
  cbn [fst snd devices log NnapiC.as_strings
       Nnapi.ANeuralNetworks_getDevice Nnapi.ANeuralNetworksDevice_getName
       Nnapi.ANeuralNetworksDevice_getType Nnapi.ANeuralNetworksDevice_getFeatureLevel].
  destruct (fst (NnapiC.ANeuralNetworks_getDevice c i) =? ANEURALNETWORKS_NO_ERROR);
    [|reflexivity].
  cbn [fst snd devices log].
  pose proof (Hv (snd (NnapiC.ANeuralNetworks_getDevice c i))) as Hname.
  destruct (Z.eqb_spec
              (fst (NnapiC.ANeuralNetworksDevice_getName c
                      (snd (NnapiC.ANeuralNetworks_getDevice c i))))
              ANEURALNETWORKS_NO_ERROR) as [H2|H2]; [|reflexivity].
  cbn [fst snd devices log].
  destruct (fst (NnapiC.ANeuralNetworksDevice_getType c
                   (snd (NnapiC.ANeuralNetworks_getDevice c i)))
            =? ANEURALNETWORKS_NO_ERROR); [|reflexivity].
  cbn [fst snd devices log].
  destruct (fst (NnapiC.ANeuralNetworksDevice_getFeatureLevel c
                   (snd (NnapiC.ANeuralNetworks_getDevice c i)))
            =? ANEURALNETWORKS_NO_ERROR); [|reflexivity].
  cbn [fst snd devices log].
  destruct (is_CPU_DISABLED opt && _ || is_CPU_ONLY opt && negb _).
  - rewrite IH. reflexivity.
  - destruct (snd (NnapiC.ANeuralNetworksDevice_getName c
                     (snd (NnapiC.ANeuralNetworks_getDevice c i)))) as [t|];
      [|exfalso; apply (Hname H2); reflexivity].
    rewrite IH. reflexivity.
Qed.

Lemma GetTargetDevices_as_strings api c opt devs :
  NnapiC.names_valid c ->
  NnapiC.GetTargetDevices api c opt devs =
  (NnapiC.Returned (fst (fst (GetTargetDevices api (NnapiC.as_strings c) opt devs))),
   snd (fst (GetTargetDevices api (NnapiC.as_strings c) opt devs)),
   snd (GetTargetDevices api (NnapiC.as_strings c) opt devs)).
Proof.
  intros Hv.
  unfold NnapiC.GetTargetDevices, NnapiC.GetTargetDevices_body.
  change (NnapiC.GetNNAPIRuntimeFeatureLevel api c)
    with (GetNNAPIRuntimeFeatureLevel api (NnapiC.as_strings c)).
  destruct (Z.ltb_spec (GetNNAPIRuntimeFeatureLevel api (NnapiC.as_strings c))
                       ANEURALNETWORKS_FEATURE_LEVEL_3) as [Hlvl|Hlvl].
  { rewrite GetTargetDevices_gate by assumption. reflexivity. }
  unfold RETURN_STATUS_ON_ERROR_WITH_NOTE.
  unfold NnapiC.bind_throwing at 1. unfold NnapiC.lift at 1. unfold bind at 1.
  unfold call, ret, return_.
  cbn [fst snd devices log app].
  destruct (Z.eqb_spec (fst (NnapiC.ANeuralNetworks_getDeviceCount c))
                       ANEURALNETWORKS_NO_ERROR) as [Hrc|Hrc].
  2:{ rewrite GetTargetDevices_count_fail by assumption. reflexivity. }
  rewrite GetTargetDevices_loop by assumption.
  cbn [fst snd NnapiC.as_strings Nnapi.ANeuralNetworks_getDeviceCount].
  unfold NnapiC.bind_throwing at 1. rewrite device_loop_as_strings by assumption.
  unfold NnapiC.lift at 1. rewrite Hrc.
  destruct (device_loop (NnapiC.as_strings c) opt _ 0 (-1) _) as [[cpu|st] w];
    [|reflexivity].
  unfold NnapiC.bind_throwing, NnapiC.lift, size, swap, ret, return_, cpu_last.
  cbv zeta.
  destruct (negb (cpu =? -1) && negb (cpu =? to_int32 (Z.of_nat (length (devices w))) - 1));
    reflexivity.
Qed.

(** C6, as stated, fails: a name query that reports success and writes
    nothing makes the function leave by an exception when it builds the
    name; no [Status] is returned, whether the handle then reports a
    failure (getting the second device, code 4) or none.  And on a
    runtime of feature level 28 a handle whose third name query fails
    gets [OK]: no query is made. *)
Lemma GetTargetDevices_null_name_throws :
  let c := NnapiC.null_name_handle 4 in
  let c0 := NnapiC.null_name_handle ANEURALNETWORKS_NO_ERROR in
  let g := NnapiC.as_pointers (test_handle 28 4) in
  ((NnapiC.asked g (DeviceName 2) /\ NnapiC.answer g (DeviceName 2) = 4)
   /\ NnapiC.GetTargetDevices None g ALL_DEVICES [] = (NnapiC.Returned OK, [], []))
  /\
  (NnapiC.asked c (Device 1) /\ NnapiC.answer c (Device 1) = 4)
  /\ (NnapiC.answer c (DeviceName 0) = ANEURALNETWORKS_NO_ERROR
      /\ snd (NnapiC.ANeuralNetworksDevice_getName c
                (snd (NnapiC.ANeuralNetworks_getDevice c 0))) = None)
  /\ NnapiC.GetTargetDevices None c ALL_DEVICES [] =
       (NnapiC.Thrown, [],
        [(DeviceCount, 0); (Device 0, 0); (DeviceName 0, 0); (DeviceType 0, 0);
         (DeviceFeatureLevel 0, 0)])
  /\ (forall st, fst (fst (NnapiC.GetTargetDevices None c ALL_DEVICES []))
                 <> NnapiC.Returned st)
  /\ (forall q, NnapiC.answer c0 q = ANEURALNETWORKS_NO_ERROR)
  /\ fst (fst (NnapiC.GetTargetDevices None c0 ALL_DEVICES [])) = NnapiC.Thrown.
Proof.
  cbv zeta.
  split; [split; [split; [|reflexivity]|vm_compute; reflexivity];
          split; [reflexivity|vm_compute; split; [discriminate|reflexivity]]|].
  split; [split; [split; [reflexivity|vm_compute; split; [discriminate|reflexivity]]
                 |reflexivity]|].
  split; [split; reflexivity|].
  split; [vm_compute; reflexivity|].
  split; [intros st; vm_compute; discriminate|].
  split; [|vm_compute; reflexivity].
  intros [|i|i|i|i]; cbn [NnapiC.answer NnapiC.null_name_handle
                           NnapiC.ANeuralNetworks_getDeviceCount
                           NnapiC.ANeuralNetworks_getDevice
                           NnapiC.ANeuralNetworksDevice_getName
                           NnapiC.ANeuralNetworksDevice_getType
                           NnapiC.ANeuralNetworksDevice_getFeatureLevel fst snd];
    try reflexivity.
  destruct (i =? 1); reflexivity.
Qed.

(** C6, amended.  When every name query that reports success has written
    a name, [GetTargetDevices] returns a [Status] and throws nothing.
    The status is a failure exactly when the runtime feature level
    reaches [ANEURALNETWORKS_FEATURE_LEVEL_3] and the handle answers one
    of the queries of the enumeration (the device count; or, the count
    having succeeded, the device, name, type or feature level of an index
    below the count) with a code other than [ANEURALNETWORKS_NO_ERROR].
    The queries the function issues are queries of the enumeration, each
    logged with the handle's code, and the status is a failure exactly
    when one of them failed; it is then the last one issued, all before
    it succeeded, and the failure carries the handle's code for it and
    its note, which names the property and the device index: no other
    query has that note. *)
Theorem GetTargetDevices_failure api c opt devs :
  NnapiC.names_valid c ->
  exists st ds lg,
    NnapiC.GetTargetDevices api c opt devs = (NnapiC.Returned st, ds, lg)
    /\ (IsOK st = false <->
          ANEURALNETWORKS_FEATURE_LEVEL_3 <= NnapiC.GetNNAPIRuntimeFeatureLevel api c
          /\ exists q, NnapiC.asked c q
                       /\ NnapiC.answer c q <> ANEURALNETWORKS_NO_ERROR)
    /\ Forall (fun e => snd e = NnapiC.answer c (fst e) /\ NnapiC.asked c (fst e)) lg
    /\ (IsOK st = false <-> Exists (fun e => snd e <> ANEURALNETWORKS_NO_ERROR) lg)
    /\ (IsOK st = false ->
        exists l0 q,
          lg = l0 ++ [(q, NnapiC.answer c q)] /\ Forall ok_event l0
          /\ NnapiC.answer c q <> ANEURALNETWORKS_NO_ERROR
          /\ st = FAIL (NnapiC.answer c q) (query_note q)
          /\ (forall q', (forall k, query_index q' = Some k -> 0 <= k) ->
                         query_note q' = query_note q -> q' = q)).
Proof.
  intros Hv. rewrite GetTargetDevices_as_strings by assumption.
  eexists. eexists. eexists. split; [reflexivity|].
  exact (GetTargetDevices_answers api (NnapiC.as_strings c) opt devs).
Qed.

(** A handle with three named devices whose third name query fails with
    code 4. *)
Lemma GetTargetDevices_failure_witness :
  let c := NnapiC.as_pointers (test_handle 30 4) in
  exists st ds lg,
    NnapiC.GetTargetDevices None c ALL_DEVICES [] = (NnapiC.Returned st, ds, lg)
    /\ (IsOK st = false <->
          ANEURALNETWORKS_FEATURE_LEVEL_3 <= NnapiC.GetNNAPIRuntimeFeatureLevel None c
          /\ exists q, NnapiC.asked c q
                       /\ NnapiC.answer c q <> ANEURALNETWORKS_NO_ERROR)
    /\ Forall (fun e => snd e = NnapiC.answer c (fst e) /\ NnapiC.asked c (fst e)) lg
    /\ (IsOK st = false <-> Exists (fun e => snd e <> ANEURALNETWORKS_NO_ERROR) lg)
    /\ (IsOK st = false ->
        exists l0 q,
          lg = l0 ++ [(q, NnapiC.answer c q)] /\ Forall ok_event l0
          /\ NnapiC.answer c q <> ANEURALNETWORKS_NO_ERROR
          /\ st = FAIL (NnapiC.answer c q) (query_note q)
          /\ (forall q', (forall k, query_index q' = Some k -> 0 <= k) ->
                         query_note q' = query_note q -> q' = q)).
Proof.
  cbv zeta.
  apply (GetTargetDevices_failure None (NnapiC.as_pointers (test_handle 30 4))
                                  ALL_DEVICES []).
  intros d _. discriminate.
Defined.

(** That run, computed: the third name query fails and the status
    carries its code and note. *)
Example failure_run :
  NnapiC.GetTargetDevices None (NnapiC.as_pointers (test_handle 30 4)) ALL_DEVICES [] =
  (NnapiC.Returned (FAIL 4 "Getting 2th device's name"), [test_cpu; test_acc 101],
   [(DeviceCount, 0); (Device 0, 0); (DeviceName 0, 0); (DeviceType 0, 0);
    (DeviceFeatureLevel 0, 0); (Device 1, 0); (DeviceName 1, 0); (DeviceType 1, 0);
    (DeviceFeatureLevel 1, 0); (Device 2, 0); (DeviceName 2, 4)]).
Proof. vm_compute. reflexivity. Qed.

(** C7.  Below [ANEURALNETWORKS_FEATURE_LEVEL_3] the function succeeds
    without touching the vector (and without a query), and the effective
    level is the runtime's, for every policy. *)
Theorem GetTargetDevices_below_level_3 api h opt devs :
  GetNNAPIRuntimeFeatureLevel api h < ANEURALNETWORKS_FEATURE_LEVEL_3 ->
  GetTargetDevices api h opt devs = (OK, devs, [])
  /\ GetNNAPIEffectiveFeatureLevelFromTargetDeviceOption api h opt =
     GetNNAPIRuntimeFeatureLevel api h.
Proof.
  intros Hlvl. split; [apply GetTargetDevices_gate; assumption|].
  unfold GetNNAPIEffectiveFeatureLevelFromTargetDeviceOption.
  rewrite GetTargetDevices_gate by assumption. cbn [IsOK negb].
  apply cap_nil.
Qed.

Lemma GetTargetDevices_below_level_3_witness :
  GetTargetDevices None (test_handle 28 0) CPU_ONLY [test_acc 7] = (OK, [test_acc 7], [])
  /\ GetNNAPIEffectiveFeatureLevelFromTargetDeviceOption None (test_handle 28 0) CPU_ONLY =
     GetNNAPIRuntimeFeatureLevel None (test_handle 28 0).
Proof.
  apply (GetTargetDevices_below_level_3 None (test_handle 28 0) CPU_ONLY [test_acc 7]).
  vm_compute. reflexivity.
Defined.




(** The vector of that run, computed: the CPU entry stays first. *)
Example not_atomic_run :
  GetTargetDevices None (test_handle 30 4) ALL_DEVICES [] =
  (FAIL 4 "Getting 2th device's name", [test_cpu; test_acc 101],
   [(DeviceCount, 0); (Device 0, 0); (DeviceName 0, 0); (DeviceType 0, 0);
    (DeviceFeatureLevel 0, 0); (Device 1, 0); (DeviceName 1, 0); (DeviceType 1, 0);
    (DeviceFeatureLevel 1, 0); (Device 2, 0); (DeviceName 2, 4)]).
Proof. vm_compute. reflexivity. Qed.

(** *** CPU last *)

Lemma swap_at_cons a l i j :
  swap_at (a :: l) (S i) (S j) = a :: swap_at l i j.
Proof.
  unfold swap_at. cbn [lookup list_lookup].
  destruct (l !! i), (l !! j); reflexivity.
Qed.

Lemma insert_last (x z : DeviceWrapper) l :
  <[length l := x]> (l ++ [z]) = l ++ [x].
Proof. induction l as [|a l IH]; cbn; [reflexivity|]. f_equal. exact IH. Qed.

Lemma swap_at_first_last x l z :
  swap_at (x :: l ++ [z]) (S (length l)) 0 = z :: l ++ [x].
Proof.
  unfold swap_at. cbn [lookup list_lookup].
  replace ((l ++ [z]) !! length l) with (Some z)
    by (symmetry; apply list_lookup_middle; reflexivity).
  cbn. f_equal. apply insert_last.
Qed.

Lemma swap_at_middle_last l1 x l2 z :
  swap_at (l1 ++ x :: l2 ++ [z]) (length l1 + S (length l2)) (length l1) =
  l1 ++ z :: l2 ++ [x].
Proof.
  induction l1 as [|a l1 IH]; cbn [app length plus].
  - apply swap_at_first_last.
  - rewrite swap_at_cons. f_equal. exact IH.
Qed.








Lemma cpu_scan_not_selected o ds : forall sz cpu,
  List.Forall (fun d => selected o d = false) ds -> cpu_scan o ds sz cpu = cpu.
Proof.
  induction ds as [|d ds IH]; intros sz cpu H; cbn; [reflexivity|].
  inversion H as [|? ? Hd Hds]; subst. rewrite Hd. apply IH; assumption.
Qed.




Lemma length_indices n : forall i, length (indices i n) = n.
Proof. induction n as [|n IH]; intros i; cbn; [reflexivity|]. f_equal. apply IH. Qed.






(** The three runs of the witness, computed. *)
Example cpu_last_runs :
  fst (GetTargetDevices None (test_handle 30 0) ALL_DEVICES []) =
    (OK, [test_acc 102; test_acc 101; test_cpu])
  /\ fst (GetTargetDevices None (test_handle 30 0) CPU_ONLY []) = (OK, [test_cpu])
  /\ fst (GetTargetDevices None (test_handle 30 0) CPU_DISABLED []) =
       (OK, [test_acc 101; test_acc 102]).
Proof. vm_compute. repeat split. Qed.

(** *** The level reported for a policy *)

Lemma feature_level_positive api h devs :
  1 <= GetNNAPIRuntimeFeatureLevel api h ->
  1 <= GetDeviceFeatureLevelInternal api h devs.
Proof.
  intros H. rewrite feature_level_cases.
  destruct (Z.ltb_spec 0 (max_feature_level devs));
    destruct (Z.ltb_spec (max_feature_level devs) (GetNNAPIRuntimeFeatureLevel api h));
    simpl andb; cbv iota; lia.
Qed.

(** C9, as stated, fails: a handle whose runtime feature level is 0 gets
    level 0 from a successful call, and one whose level is -1 gets -1
    from a successful call. *)
Lemma effective_level_not_positive :
  (IsOK (fst (fst (GetTargetDevices None (test_handle 0 0) ALL_DEVICES []))) = true
   /\ GetNNAPIEffectiveFeatureLevelFromTargetDeviceOption None (test_handle 0 0) ALL_DEVICES = 0)
  /\ (IsOK (fst (fst (GetTargetDevices None (test_handle (-1) 0) ALL_DEVICES []))) = true
      /\ GetNNAPIEffectiveFeatureLevelFromTargetDeviceOption
           None (test_handle (-1) 0) ALL_DEVICES = -1).
Proof. repeat split. Qed.

(** C9, amended.  When the runtime feature level is at least 1, the
    function returns -1 exactly when [GetTargetDevices] fails, and on
    success it returns the level of [GetDeviceFeatureLevelInternal] on
    the devices found, which is at least 1. *)
Theorem effective_level_signals_failure api h opt :
  1 <= GetNNAPIRuntimeFeatureLevel api h ->
  let st := fst (fst (GetTargetDevices api h opt [])) in
  let devs := snd (fst (GetTargetDevices api h opt [])) in
  let lvl := GetNNAPIEffectiveFeatureLevelFromTargetDeviceOption api h opt in
  (lvl = -1 <-> IsOK st = false)
  /\ (IsOK st = true -> 1 <= lvl /\ lvl = GetDeviceFeatureLevelInternal api h devs).
Proof.
  intros Hlvl. cbv zeta. unfold GetNNAPIEffectiveFeatureLevelFromTargetDeviceOption.
  destruct (GetTargetDevices api h opt []) as [[st devs] lg]. cbn [fst snd].
  pose proof (feature_level_positive api h devs Hlvl) as Hpos.
  destruct st as [|rc note]; cbn [IsOK negb].
  - split.
    + split; [lia|discriminate].
    + intros _. split; [exact Hpos|reflexivity].
  - split.
    + split; reflexivity.
    + discriminate.
Qed.

Lemma effective_level_signals_failure_witness :
  (GetNNAPIEffectiveFeatureLevelFromTargetDeviceOption None (test_handle 30 4) ALL_DEVICES = -1
   <-> IsOK (fst (fst (GetTargetDevices None (test_handle 30 4) ALL_DEVICES []))) = false)
  /\ (IsOK (fst (fst (GetTargetDevices None (test_handle 30 4) ALL_DEVICES []))) = true ->
      1 <= GetNNAPIEffectiveFeatureLevelFromTargetDeviceOption
             None (test_handle 30 4) ALL_DEVICES
      /\ GetNNAPIEffectiveFeatureLevelFromTargetDeviceOption
           None (test_handle 30 4) ALL_DEVICES =
         GetDeviceFeatureLevelInternal None (test_handle 30 4)
           (snd (fst (GetTargetDevices None (test_handle 30 4) ALL_DEVICES [])))).
Proof.
  apply (effective_level_signals_failure None (test_handle 30 4) ALL_DEVICES).
  vm_compute. discriminate.
Defined.

(* ===================================================================== *)
(** ** Part V: more on the pack kernel                                    *)
(* ===================================================================== *)

(** *** One macro expansion *)

Lemma block_run_scratch up s off :
  G (run up (TransposePackB8x4BlockLasx off) s) ra = G s ra
  /\ G (run up (TransposePackB8x4BlockLasx off) s) t0 = wrap64 (G s a2 + G s a2).
Proof. destruct s as [g xs m]. split; reflexivity. Qed.

Lemma block_byte up s off e c k :
  0 <= e < 8 -> 0 <= c < 4 -> 0 <= k < 4 ->
  load_byte (M (run up (TransposePackB8x4BlockLasx off) s))
            (G s a0 + off + 64 * c + 4 * e + k) =
  load_byte (M s) (G s a1 + e * G s a2 + 4 * c + k).
Proof.
  intros He Hc Hk. destruct (block_run up s off) as (Hm & _). rewrite Hm.
  rewrite block_read. cbv zeta.
  replace (wrap64 (G s a0 + off + 64 * c + 4 * e + k - (G s a0 + off)))
    with (64 * c + 4 * e + k) by (symmetry; apply wrap64_small_eq; lia).
  replace (64 * c + 4 * e + k <? 256) with true by (symmetry; apply Z.ltb_lt; lia).
  replace ((64 * c + 4 * e + k) mod 64) with (4 * e + k) by (Z.div_mod_to_equations; lia).
  replace (4 * e + k <? 32) with true by (symmetry; apply Z.ltb_lt; lia).
  replace ((4 * e + k) / 4) with e by (Z.div_mod_to_equations; lia).
  replace ((64 * c + 4 * e + k) / 64) with c by (Z.div_mod_to_equations; lia).
  replace ((64 * c + 4 * e + k) mod 4) with k by (Z.div_mod_to_equations; lia).
  reflexivity.
Qed.

(** X1.  One expansion of [TransposePackB8x4BlockLasx] with store offset
    [off] puts element [(e, c)] of the 8x4 block at [a1] (rows [a2] bytes
    apart) at byte offset [off + 64c + 4e] from [a0].  All eight rows are
    loaded before the first store, so this holds even when the
    destination overlaps the block. *)
Theorem block8x4_layout up s off e c :
  0 <= e < 8 -> 0 <= c < 4 ->
  load_word (M (run up (TransposePackB8x4BlockLasx off) s))
            (G s a0 + off + 64 * c + 4 * e) =
  load_word (M s) (G s a1 + e * G s a2 + 4 * c).
Proof.
  intros He Hc. apply load_word_bytes. intros k Hk. apply block_byte; assumption.
Qed.

(** An expansion run in place: the destination is the block itself
    ([a0 = a1 = 0x1000], rows 16 bytes apart). *)
Lemma block8x4_layout_witness :
  load_word (M (run keep_upper (TransposePackB8x4BlockLasx 0)
                    (mkState (test_regs 0x1000 0x1000 16)
                             (fun _ => XV zero_quad zero_quad) test_mem)))
            (0x1000 + 0 + 64 * 1 + 4 * 5) =
  load_word test_mem (0x1000 + 5 * 16 + 4 * 1).
Proof.
  apply (block8x4_layout keep_upper
           (mkState (test_regs 0x1000 0x1000 16) (fun _ => XV zero_quad zero_quad) test_mem)
           0 5 1); lia.
Defined.

(** X2.  What else an expansion does: it writes nothing but the four
    32-byte runs at [a0 + off + 64c], leaves [a1] four rows further on
    and [t6] six rows further on, [t0] at two rows' length, and keeps
    [a0], [a2] and [ra]. *)
Theorem block8x4_effects up s off :
  (forall x,
     ~ (wrap64 (x - (G s a0 + off)) < 256 /\ wrap64 (x - (G s a0 + off)) mod 64 < 32) ->
     load_byte (M (run up (TransposePackB8x4BlockLasx off) s)) x = load_byte (M s) x)
  /\ G (run up (TransposePackB8x4BlockLasx off) s) a1 = wrap64 (G s a1 + 4 * G s a2)
  /\ G (run up (TransposePackB8x4BlockLasx off) s) t6 = wrap64 (G s a1 + 6 * G s a2)
  /\ G (run up (TransposePackB8x4BlockLasx off) s) t0 = wrap64 (2 * G s a2)
  /\ G (run up (TransposePackB8x4BlockLasx off) s) a0 = G s a0
  /\ G (run up (TransposePackB8x4BlockLasx off) s) a2 = G s a2
  /\ G (run up (TransposePackB8x4BlockLasx off) s) ra = G s ra.
Proof.
  destruct (block_run up s off) as (Hm & Ha0 & Ha2 & Ha1 & Ht6).
  destruct (block_run_scratch up s off) as (Hra & Ht0).
  split; [|repeat (split; [assumption|]); try assumption].
  - intros x Hx. rewrite Hm, block_read. cbv zeta.
    destruct (Z.ltb_spec (wrap64 (x - (G s a0 + off))) 256) as [H1|H1];
      destruct (Z.ltb_spec (wrap64 (x - (G s a0 + off)) mod 64) 32) as [H2|H2];
      simpl andb; cbv iota; try reflexivity.
    exfalso. apply Hx. split; assumption.
  - split; [rewrite Ht0; f_equal; lia|]. repeat (split; [assumption|]). assumption.
Qed.

(** *** The routine on overlapping buffers, and its registers *)

(** X3.  Rows 0..7 are packed from the memory as it was at entry
    whatever the buffers' positions; rows 8..15 are loaded after the
    first expansion has stored, and are packed from the memory at entry
    as long as their bytes are not among the 128 bytes that expansion
    wrote (offsets [64c' .. 64c' + 31] from [D]).  The destination may
    overlap the rest of the source window. *)
Theorem pack16x4_overlap up s r c :
  0 <= r < 16 -> 0 <= c < 4 ->
  (8 <= r -> forall k, 0 <= k < 4 ->
     ~ (wrap64 (G s a1 + 4 * (r * G s a2 + c) + k - G s a0) < 256
        /\ wrap64 (G s a1 + 4 * (r * G s a2 + c) + k - G s a0) mod 64 < 32)) ->
  dst_elem (M (run up MlasSgemmTransposePackB16x4Lasx s)) (G s a0) (16 * c + r) =
  src_elem (M s) (G s a1) (G s a2) r c.
Proof.
  intros Hr Hc Hfree. unfold dst_elem, src_elem.
  apply load_word_bytes. intros k Hk. rewrite kernel_read. cbv zeta.
  generalize dependent (G s a0). generalize (G s a1) (G s a2) (M s).
  intros B ldb m D Hfree.
  replace (wrap64 (D + 4 * (16 * c + r) + k - D)) with (64 * c + 4 * r + k)
    by (symmetry; apply wrap64_small_eq; lia).
  replace (64 * c + 4 * r + k <? 256) with true by (symmetry; apply Z.ltb_lt; lia).
  replace ((64 * c + 4 * r + k) mod 64 / 4) with r by (Z.div_mod_to_equations; lia).
  replace ((64 * c + 4 * r + k) / 64) with c by (Z.div_mod_to_equations; lia).
  replace ((64 * c + 4 * r + k) mod 4) with k by (Z.div_mod_to_equations; lia).
  destruct (Z.ltb_spec ((64 * c + 4 * r + k) mod 64) 32) as [H|H]; [reflexivity|].
  assert (H8 : 8 <= r) by (Z.div_mod_to_equations; lia).
  specialize (Hfree H8 k Hk).
  rewrite block_read. cbv zeta.
  replace (B + 4 * (r * ldb + c) + k - (D + 0)) with (B + 4 * (r * ldb + c) + k - D) by lia.
  destruct (Z.ltb_spec (wrap64 (B + 4 * (r * ldb + c) + k - D)) 256) as [H1|H1];
    destruct (Z.ltb_spec (wrap64 (B + 4 * (r * ldb + c) + k - D) mod 64) 32) as [H2|H2];
    simpl andb; cbv iota; try reflexivity.
  exfalso. apply Hfree. split; assumption.
Qed.

(** A destination 160 bytes below the source: it overlaps rows 0..5 of
    the window, and row 9 is still packed right. *)
Lemma pack16x4_overlap_witness :
  dst_elem (M (run keep_upper MlasSgemmTransposePackB16x4Lasx
                   (mkState (test_regs (0x1000 - 160) 0x1000 4)
                            (fun _ => XV zero_quad zero_quad) test_mem)))
           (0x1000 - 160) (16 * 2 + 9) =
  src_elem test_mem 0x1000 4 9 2.
Proof.
  apply (pack16x4_overlap keep_upper
           (mkState (test_regs (0x1000 - 160) 0x1000 4)
                    (fun _ => XV zero_quad zero_quad) test_mem) 9 2).
  - lia.
  - lia.
  - intros _ k Hk. cbn [G test_regs]. unfold wrap64. Z.div_mod_to_equations. lia.
Defined.

(** Outside that condition the rows 8..15 are not the source's: with the
    destination on row 8 of the window, element (8, 0) of the packed
    buffer is the source's element (0, 0). *)
Example pack16x4_clobbered_row :
  let s := mkState (test_regs (0x1000 + 128) 0x1000 4)
                   (fun _ => XV zero_quad zero_quad) test_mem in
  dst_elem (M (run keep_upper MlasSgemmTransposePackB16x4Lasx s)) (G s a0) (16 * 0 + 8)
  = src_elem (M s) (G s a1) (G s a2) 0 0
  /\ src_elem (M s) (G s a1) (G s a2) 0 0 <> src_elem (M s) (G s a1) (G s a2) 8 0.
Proof. cbv zeta. split; [vm_compute; reflexivity|vm_compute; discriminate]. Qed.

Lemma kernel_regs up s :
  G (run up MlasSgemmTransposePackB16x4Lasx s) a0 = G s a0
  /\ G (run up MlasSgemmTransposePackB16x4Lasx s) ra = G s ra
  /\ G (run up MlasSgemmTransposePackB16x4Lasx s) a2 = wrap64 (4 * G s a2)
  /\ G (run up MlasSgemmTransposePackB16x4Lasx s) a1 =
       wrap64 (wrap64 (wrap64 (wrap64 (4 * G s a2) + wrap64 (4 * G s a2))
                       + wrap64 (G s a1 + 6 * wrap64 (4 * G s a2)))
               + 4 * wrap64 (4 * G s a2))
  /\ G (run up MlasSgemmTransposePackB16x4Lasx s) t6 =
       wrap64 (wrap64 (wrap64 (wrap64 (4 * G s a2) + wrap64 (4 * G s a2))
                       + wrap64 (G s a1 + 6 * wrap64 (4 * G s a2)))
               + 6 * wrap64 (4 * G s a2))
  /\ G (run up MlasSgemmTransposePackB16x4Lasx s) t0 =
       wrap64 (wrap64 (4 * G s a2) + wrap64 (4 * G s a2)).
Proof.
  unfold MlasSgemmTransposePackB16x4Lasx.
  rewrite 4 run_app by reflexivity.
  rewrite run_jr.
  destruct (run_slli up s) as (_ & H1a0 & H1a1 & H1a2).
  assert (H1ra : G (run up [slli_d a2 a2 2] s) ra = G s ra) by reflexivity.
  generalize dependent (run up [slli_d a2 a2 2] s). intros s1 H1a0 H1a1 H1a2 H1ra.
  destruct (block_run up s1 (0 * 4)) as (_ & H2a0 & H2a2 & H2a1 & H2t6).
  destruct (block_run_scratch up s1 (0 * 4)) as (H2ra & _).
  generalize dependent (run up (TransposePackB8x4BlockLasx (0 * 4)) s1).
  intros s2 H2a0 H2a2 H2a1 H2t6 H2ra.
  destruct (run_advance up s2) as (_ & H3a0 & H3a2 & H3a1).
  assert (H3ra : G (run up [add_d t0 a2 a2; add_d a1 t0 t6] s2) ra = G s2 ra) by reflexivity.
  generalize dependent (run up [add_d t0 a2 a2; add_d a1 t0 t6] s2).
  intros s3 H3a0 H3a2 H3a1 H3ra.
  destruct (block_run up s3 (8 * 4)) as (_ & H4a0 & H4a2 & H4a1 & H4t6).
  destruct (block_run_scratch up s3 (8 * 4)) as (H4ra & H4t0).
  rewrite H4a0, H4ra, H4a2, H4a1, H4t6, H4t0.
  rewrite H3a0, H3ra, H3a2, H3a1, H2a0, H2ra, H2a2, H2t6, H1a0, H1a1, H1a2, H1ra.
  split; [reflexivity|]. split; [reflexivity|]. split; [reflexivity|].
  split; [reflexivity|]. split; reflexivity.
Qed.

(** X4.  On return the routine has kept [a0] (the destination) and [ra];
    [a2] holds the row length in bytes, [a1] points 12 rows and [t6] 14
    rows into the source, [t0] holds two rows' length: the caller's copy
    of the source pointer and of ldb is gone. *)
Theorem pack16x4_registers up s :
  G (run up MlasSgemmTransposePackB16x4Lasx s) a0 = G s a0
  /\ G (run up MlasSgemmTransposePackB16x4Lasx s) ra = G s ra
  /\ G (run up MlasSgemmTransposePackB16x4Lasx s) a2 = wrap64 (4 * G s a2)
  /\ G (run up MlasSgemmTransposePackB16x4Lasx s) a1 = wrap64 (G s a1 + 4 * (12 * G s a2))
  /\ G (run up MlasSgemmTransposePackB16x4Lasx s) t6 = wrap64 (G s a1 + 4 * (14 * G s a2))
  /\ G (run up MlasSgemmTransposePackB16x4Lasx s) t0 = wrap64 (4 * (2 * G s a2)).
Proof.
  destruct (kernel_regs up s) as (Ha0 & Hra & Ha2 & Ha1 & Ht6 & Ht0).
  rewrite Ha0, Hra, Ha2, Ha1, Ht6, Ht0.
  split; [reflexivity|]. split; [reflexivity|]. split; [reflexivity|].
  split; [solve_wrap|]. split; solve_wrap.
Qed.

(* ===================================================================== *)
(** ** Part VI: more on device selection                                  *)
(* ===================================================================== *)

(** *** The description of a device list *)

Lemma string_app_assoc (a b c : string) : (a +:+ b) +:+ c = a +:+ (b +:+ c).
Proof.
  induction a as [|x a IH]; [reflexivity|].
  change (String x ((a +:+ b) +:+ c) = String x (a +:+ (b +:+ c))).
  rewrite IH. reflexivity.
Qed.

Lemma string_app_nil_r (a : string) : a +:+ "" = a.
Proof.
  induction a as [|x a IH]; [reflexivity|].
  change (String x (a +:+ "") = String x a).
  rewrite IH. reflexivity.
Qed.

Lemma description_from mk devs : forall acc,
  fold_left
    (fun detail dev =>
       detail +:+ (mk "[Name: [" (name dev) "], Type [" (type dev) "]], " +:+ " ,"))
    devs acc
  = acc +:+ GetDevicesDescription mk devs.
Proof.
  unfold GetDevicesDescription.
  induction devs as [|d devs IH]; intros acc; cbn [fold_left].
  - symmetry. apply string_app_nil_r.
  - rewrite IH. rewrite (IH ("" +:+ _)).
    change ("" +:+ ?t) with t.
    apply string_app_assoc.
Qed.

(** X5.  [GetDevicesDescription] gives the empty string for no device,
    one [MakeString] text followed by [" ,"] for each device, in order:
    the description of [l1 ++ l2] is that of [l1] followed by that of
    [l2], and a description of at least one device ends in [" ,"]. *)
Theorem GetDevicesDescription_app mk :
  GetDevicesDescription mk [] = ""
  /\ (forall d,
        GetDevicesDescription mk [d] =
        mk "[Name: [" (name d) "], Type [" (type d) "]], " +:+ " ,")
  /\ (forall l1 l2,
        GetDevicesDescription mk (l1 ++ l2) =
        GetDevicesDescription mk l1 +:+ GetDevicesDescription mk l2)
  /\ (forall l d, exists text,
        GetDevicesDescription mk (l ++ [d]) = text +:+ " ,").
Proof.
  assert (Happ : forall l1 l2,
            GetDevicesDescription mk (l1 ++ l2) =
            GetDevicesDescription mk l1 +:+ GetDevicesDescription mk l2).
  { intros l1 l2. unfold GetDevicesDescription at 1.
    rewrite fold_left_app. fold (GetDevicesDescription mk l1).
    apply description_from. }
  split; [reflexivity|]. split; [reflexivity|]. split; [exact Happ|].
  intros l d. rewrite Happ.
  exists (GetDevicesDescription mk l +:+ mk "[Name: [" (name d) "], Type [" (type d) "]], ").
  rewrite string_app_assoc. reflexivity.
Qed.

(** *** More on the feature-level cap *)

Lemma max_feature_level_perm l l' :
  Permutation l l' -> max_feature_level l = max_feature_level l'.
Proof.
  induction 1 as [|d l l' _ IH|d e l|l l' l'' _ IH1 _ IH2]; cbn.
  - reflexivity.
  - unfold max_feature_level in IH. rewrite IH. reflexivity.
  - lia.
  - congruence.
Qed.

Lemma max_feature_level_attained l :
  max_feature_level l = -1 \/ exists d, In d l /\ feature_level d = max_feature_level l.
Proof.
  induction l as [|e l IH]; cbn; [left; reflexivity|].
  fold (max_feature_level l).
  destruct (Z.max_spec (feature_level e) (max_feature_level l)) as [[Hlt ->]|[Hge ->]].
  - destruct IH as [IH|(d & Hd & E)]; [left; exact IH|].
    right. exists d. split; [right; exact Hd|exact E].
  - right. exists e. split; [left; reflexivity|reflexivity].
Qed.

(** X6.  The level does not depend on the order of the devices: the loop
    only keeps their maximum. *)
Theorem feature_level_order_irrelevant api h devs devs' :
  Permutation devs devs' ->
  GetDeviceFeatureLevelInternal api h devs = GetDeviceFeatureLevelInternal api h devs'
  /\ GetNNAPIEffectiveFeatureLevel api h devs = GetNNAPIEffectiveFeatureLevel api h devs'.
Proof.
  intros HP. unfold GetNNAPIEffectiveFeatureLevel.
  rewrite !feature_level_cases, (max_feature_level_perm devs devs' HP).
  split; reflexivity.
Qed.

Lemma feature_level_order_irrelevant_witness :
  GetDeviceFeatureLevelInternal None (test_handle 30 0) [test_cpu; test_acc 101] =
  GetDeviceFeatureLevelInternal None (test_handle 30 0) [test_acc 101; test_cpu]
  /\ GetNNAPIEffectiveFeatureLevel None (test_handle 30 0) [test_cpu; test_acc 101] =
     GetNNAPIEffectiveFeatureLevel None (test_handle 30 0) [test_acc 101; test_cpu].
Proof.
  apply (feature_level_order_irrelevant None (test_handle 30 0)).
  apply perm_swap.
Defined.

(** X7.  The level returned is always one that was reported: either the
    runtime's, or the feature level of one of the devices, and then one
    strictly between 0 and the runtime's.  It is never above the
    runtime's level and always fits an [int32_t]. *)
Theorem feature_level_is_reported api h devs :
  (GetDeviceFeatureLevelInternal api h devs = GetNNAPIRuntimeFeatureLevel api h
   \/ exists d, In d devs
        /\ GetDeviceFeatureLevelInternal api h devs = feature_level d
        /\ 0 < feature_level d < GetNNAPIRuntimeFeatureLevel api h)
  /\ GetDeviceFeatureLevelInternal api h devs <= GetNNAPIRuntimeFeatureLevel api h
  /\ - 2 ^ 31 <= GetDeviceFeatureLevelInternal api h devs < 2 ^ 31.
Proof.
  rewrite feature_level_cases.
  pose proof (runtime_level_range api h) as Hrt.
  destruct (Z.ltb_spec 0 (max_feature_level devs)) as [H0|H0];
    destruct (Z.ltb_spec (max_feature_level devs) (GetNNAPIRuntimeFeatureLevel api h))
      as [H1|H1]; simpl andb; cbv iota;
    try (split; [left; reflexivity|lia]).
  split; [|lia]. right.
  destruct (max_feature_level_attained devs) as [E|(d & Hd & E)]; [lia|].
  exists d. rewrite E. split; [exact Hd|]. split; [reflexivity|lia].
Qed.

(** X8.  One device whose feature level reaches the runtime's (the NNAPI
    CPU device reports 1000) takes the cap away: the level is the
    runtime's, whatever the other devices report. *)
Theorem capable_device_lifts_cap api h devs d :
  In d devs ->
  GetNNAPIRuntimeFeatureLevel api h <= feature_level d ->
  GetDeviceFeatureLevelInternal api h devs = GetNNAPIRuntimeFeatureLevel api h
  /\ GetNNAPIEffectiveFeatureLevel api h devs = GetNNAPIRuntimeFeatureLevel api h.
Proof.
  intros Hd Hge. unfold GetNNAPIEffectiveFeatureLevel. rewrite feature_level_cases.
  pose proof (max_feature_level_In devs d Hd) as Hmax.
  replace (max_feature_level devs <? GetNNAPIRuntimeFeatureLevel api h) with false
    by (symmetry; apply Z.ltb_ge; lia).
  rewrite andb_false_r. split; reflexivity.
Qed.

Lemma capable_device_lifts_cap_witness :
  GetDeviceFeatureLevelInternal None (test_handle 30 0) [test_acc 101; test_cpu] =
    GetNNAPIRuntimeFeatureLevel None (test_handle 30 0)
  /\ GetNNAPIEffectiveFeatureLevel None (test_handle 30 0) [test_acc 101; test_cpu] =
     GetNNAPIRuntimeFeatureLevel None (test_handle 30 0).
Proof.
  apply (capable_device_lifts_cap None (test_handle 30 0) [test_acc 101; test_cpu] test_cpu).
  - right. left. reflexivity.
  - vm_compute. discriminate.
Defined.

(** *** More on [GetTargetDevices] *)

(** The loop, whatever the handle answers: it goes through the first [k]
    indices, and either [k = n] or the queries on index [i + k] fail. *)
Lemma device_loop_general h opt n : forall i cpu w,
  exists k r w',
    (k <= n)%nat
    /\ device_loop h opt n i cpu w = (r, w')
    /\ devices w' =
         devices w ++ List.filter (selected opt) (map (device_at h) (indices i k))
    /\ (forall j, In j (indices i k) -> queries_ok h j)
    /\ match r with
       | Continue c =>
           k = n
           /\ c = cpu_scan opt (map (device_at h) (indices i n))
                           (Z.of_nat (length (devices w))) cpu
           /\ log w' = log w ++ flat_map (ok_queries h) (indices i n)
       | Return _ => (k < n)%nat /\ ~ queries_ok h (i + Z.of_nat k)
       end.
Proof.
  induction n as [|n IH]; intros i cpu w.
  - exists 0%nat, (Continue cpu), w. cbn. unfold ret. rewrite !app_nil_r.
    split; [lia|]. split; [reflexivity|]. split; [reflexivity|].
    split; [intros j []|]. split; [reflexivity|]. split; reflexivity.
  - destruct (queries_ok_dec h i) as [Hi|Hi].
    + rewrite device_loop_step by assumption.
      cbn [indices map List.filter cpu_scan flat_map].
      destruct (selected opt (device_at h i)) eqn:Hsel.
      * destruct (IH (i + 1)
                   (if is_cpu (device_at h i) then to_int32 (Z.of_nat (length (devices w)))
                    else cpu)
                   (mkWorld (devices w ++ [device_at h i]) (log w ++ ok_queries h i)))
          as (k & r & w' & Hk & E & Hdev & Hok & Hr).
        exists (S k), r, w'. split; [lia|]. split; [exact E|].
        cbn [devices log] in Hdev, Hr. cbn [indices map List.filter]. rewrite Hsel.
        split; [rewrite Hdev, <- app_assoc; reflexivity|].
        split; [intros j [<-|Hj]; [exact Hi|apply Hok, Hj]|].
        destruct r as [c|st].
        -- destruct Hr as (-> & -> & Hlog). split; [reflexivity|].
           rewrite length_app in *. cbn [length] in *.
           replace (Z.of_nat (length (devices w) + 1)) with (Z.of_nat (length (devices w)) + 1)
             by lia.
           split; [reflexivity|]. rewrite Hlog, <- app_assoc. reflexivity.
        -- destruct Hr as (Hlt & Hno). split; [lia|].
           replace (i + Z.of_nat (S k)) with (i + 1 + Z.of_nat k) by lia. exact Hno.
      * destruct (IH (i + 1) cpu (mkWorld (devices w) (log w ++ ok_queries h i)))
          as (k & r & w' & Hk & E & Hdev & Hok & Hr).
        exists (S k), r, w'. split; [lia|]. split; [exact E|].
        cbn [devices log] in Hdev, Hr. cbn [indices map List.filter]. rewrite Hsel.
        split; [exact Hdev|].
        split; [intros j [<-|Hj]; [exact Hi|apply Hok, Hj]|].
        destruct r as [c|st].
        -- destruct Hr as (-> & -> & Hlog). split; [reflexivity|].
           split; [reflexivity|]. rewrite Hlog, <- app_assoc. reflexivity.
        -- destruct Hr as (Hlt & Hno). split; [lia|].
           replace (i + Z.of_nat (S k)) with (i + 1 + Z.of_nat k) by lia. exact Hno.
    + destruct (device_loop_step_fail h opt n i cpu w Hi)
        as (l0 & q & rc & E & _ & _ & _).
      exists 0%nat. eexists. eexists. split; [lia|]. split; [exact E|].
      cbn. rewrite app_nil_r. split; [reflexivity|]. split; [intros j []|].
      split; [lia|]. replace (i + Z.of_nat 0) with i by lia. exact Hi.
Qed.

(** Where the loop leaves [cpu_index]: untouched when no selected device
    is a CPU, and otherwise at the position of the last one. *)
Lemma cpu_scan_cases o ds : forall sz cpu,
  (List.Forall (fun d => is_cpu d = false) (List.filter (selected o) ds)
   /\ cpu_scan o ds sz cpu = cpu)
  \/ exists F1 c F2,
       List.filter (selected o) ds = F1 ++ c :: F2
       /\ is_cpu c = true
       /\ List.Forall (fun d => is_cpu d = false) F2
       /\ cpu_scan o ds sz cpu = to_int32 (sz + Z.of_nat (length F1)).
Proof.
  induction ds as [|d ds IH]; intros sz cpu; cbn [List.filter cpu_scan].
  - left. split; [constructor|reflexivity].
  - destruct (selected o d) eqn:Hsel; [|apply IH].
    destruct (is_cpu d) eqn:Hcpu.
    + destruct (IH (sz + 1) (to_int32 sz)) as [(HF & E)|(F1 & c & F2 & EF & Hc & HF2 & E)].
      * right. exists [], d, (List.filter (selected o) ds).
        split; [reflexivity|]. split; [exact Hcpu|]. split; [exact HF|].
        rewrite E. f_equal. cbn. lia.
      * right. exists (d :: F1), c, F2. rewrite EF.
        split; [reflexivity|]. split; [exact Hc|]. split; [exact HF2|].
        rewrite E. f_equal. cbn [length]. lia.
    + destruct (IH (sz + 1) cpu) as [(HF & E)|(F1 & c & F2 & EF & Hc & HF2 & E)].
      * left. split; [constructor; assumption|exact E].
      * right. exists (d :: F1), c, F2. rewrite EF.
        split; [reflexivity|]. split; [exact Hc|]. split; [exact HF2|].
        rewrite E. f_equal. cbn [length]. lia.
Qed.

(** The swap, by its effect: the part before the CPU entry stays, the
    CPU entry goes last. *)
Lemma cpu_last_shape l1 c l2 :
  Z.of_nat (length (l1 ++ c :: l2)) < 2 ^ 31 ->
  exists tail,
    cpu_last (to_int32 (Z.of_nat (length l1))) (l1 ++ c :: l2) = l1 ++ tail
    /\ Permutation tail (c :: l2) /\ last tail = Some c
    /\ (l2 = [] -> tail = [c]).
Proof.
  intros Hlen. rewrite length_app in Hlen. cbn [length] in Hlen.
  unfold cpu_last. cbv zeta.
  rewrite (to_int32_small (Z.of_nat (length l1))) by lia.
  rewrite to_int32_small by (rewrite length_app; cbn [length]; lia).
  replace (Z.of_nat (length l1) =? -1) with false by (symmetry; apply Z.eqb_neq; lia).
  cbn [negb andb].
  destruct l2 as [|y l2].
  - replace (Z.of_nat (length l1) =? Z.of_nat (length (l1 ++ [c])) - 1) with true
      by (symmetry; apply Z.eqb_eq; rewrite length_app; cbn [length]; lia).
    cbn [negb]. exists [c]. repeat split; reflexivity.
  - destruct (exists_last (l := y :: l2)) as (l2' & z & E); [discriminate|].
    rewrite E in *.
    replace (Z.of_nat (length l1) =? Z.of_nat (length (l1 ++ c :: l2' ++ [z])) - 1)
      with false
      by (symmetry; apply Z.eqb_neq; rewrite !length_app; cbn [length];
          rewrite length_app; cbn [length]; lia).
    cbn [negb].
    replace (0 <=? Z.of_nat (length (l1 ++ c :: l2' ++ [z])) - 1) with true
      by (symmetry; apply Z.leb_le; rewrite !length_app; cbn [length]; lia).
    replace (0 <=? Z.of_nat (length l1)) with true by (symmetry; apply Z.leb_le; lia).
    cbn [andb].
    replace (Z.to_nat (Z.of_nat (length (l1 ++ c :: l2' ++ [z])) - 1))
      with (length l1 + S (length l2'))%nat
      by (rewrite !length_app; cbn [length]; rewrite length_app; cbn [length]; lia).
    replace (Z.to_nat (Z.of_nat (length l1))) with (length l1) by lia.
    rewrite swap_at_middle_last.
    exists (z :: l2' ++ [c]). split; [reflexivity|]. split; [|split].
    + rewrite <- !Permutation_cons_append. apply perm_swap.
    + change (z :: l2' ++ [c]) with ((z :: l2') ++ [c]). apply last_snoc.
    + intros Hnil. destruct l2'; discriminate Hnil.
Qed.

(** The vector after a loop that went through, for every policy and
    every mix of devices. *)
Lemma cpu_last_after_scan o devs ds :
  Z.of_nat (length devs + length (List.filter (selected o) ds)) < 2 ^ 31 ->
  exists added,
    cpu_last (cpu_scan o ds (Z.of_nat (length devs)) (-1))
             (devs ++ List.filter (selected o) ds) = devs ++ added
    /\ Permutation added (List.filter (selected o) ds)
    /\ (List.Forall (fun d => is_cpu d = false) (List.filter (selected o) ds) ->
        added = List.filter (selected o) ds)
    /\ (List.Forall (fun d => is_cpu d = true) (List.filter (selected o) ds) ->
        added = List.filter (selected o) ds)
    /\ (forall d, In d (List.filter (selected o) ds) -> is_cpu d = true ->
        exists c, last added = Some c /\ is_cpu c = true).
Proof.
  intros Hlen.
  destruct (cpu_scan_cases o ds (Z.of_nat (length devs)) (-1))
    as [(HF & E)|(F1 & c & F2 & EF & Hc & HF2 & E)].
  - rewrite E. exists (List.filter (selected o) ds).
    split; [reflexivity|]. split; [reflexivity|]. split; [reflexivity|].
    split; [reflexivity|]. intros d Hd Hcpu.
    rewrite List.Forall_forall in HF. rewrite (HF d Hd) in Hcpu. discriminate.
  - rewrite E, EF in *.
    replace (Z.of_nat (length devs) + Z.of_nat (length F1))
      with (Z.of_nat (length (devs ++ F1))) by (rewrite length_app; lia).
    rewrite (app_assoc devs F1 (c :: F2)).
    destruct (cpu_last_shape (devs ++ F1) c F2) as (tail & Et & Hperm & Hlast & Hnil).
    { rewrite <- app_assoc, length_app. lia. }
    rewrite Et, <- app_assoc. exists (F1 ++ tail).
    split; [reflexivity|].
    split; [apply Permutation_app_head; exact Hperm|].
    split; [|split].
    + intros HF. apply List.Forall_app in HF as [_ HF].
      inversion HF as [|? ? Hc' _]; subst. rewrite Hc in Hc'. discriminate.
    + intros HF. apply List.Forall_app in HF as [_ HF].
      inversion HF as [|? ? _ HF2']; subst.
      destruct F2 as [|y F2]; [rewrite Hnil; reflexivity|].
      inversion HF2 as [|? ? Hy _]; subst. inversion HF2' as [|? ? Hy' _]; subst.
      rewrite Hy in Hy'. discriminate.
    + intros _ _ _. exists c. split; [|exact Hc].
      rewrite last_app, Hlast. reflexivity.
Qed.

Lemma filter_length_le (f : DeviceWrapper -> bool) l :
  (length (List.filter f l) <= length l)%nat.
Proof. induction l as [|d l IH]; cbn; [lia|]. destruct (f d); cbn; lia. Qed.

Lemma length_enumerated h :
  Z.of_nat (length (enumerated h)) = to_uint32 (snd (ANeuralNetworks_getDeviceCount h)).
Proof.
  unfold enumerated. rewrite length_map, length_indices.
  apply Z2Nat.id. unfold to_uint32. apply Z.mod_pos_bound. lia.
Qed.

Lemma indices_incl k n i j : (k <= n)%nat -> In j (indices i k) -> In j (indices i n).
Proof. intros Hk Hj. apply In_indices in Hj. apply In_indices. lia. Qed.





(** X9.  [GetTargetDevices] only appends: whatever the handle answers,
    the vector it leaves starts with the caller's entries, untouched and
    in place, and each entry after them is a device the handle
    enumerated that passes the policy filter. *)
Theorem GetTargetDevices_only_appends api h opt devs :
  Z.of_nat (length devs) + to_uint32 (snd (ANeuralNetworks_getDeviceCount h)) < 2 ^ 31 ->
  exists added,
    snd (fst (GetTargetDevices api h opt devs)) = devs ++ added
    /\ (forall d, In d added -> selected opt d = true /\ In d (enumerated h)).
Proof.
  intros Hsize.
  destruct (Z.lt_ge_cases (GetNNAPIRuntimeFeatureLevel api h) ANEURALNETWORKS_FEATURE_LEVEL_3)
    as [Hlvl|Hlvl].
  { rewrite GetTargetDevices_gate by assumption. exists []. cbn [fst snd].
    rewrite app_nil_r. split; [reflexivity|]. intros d []. }
  destruct (Z.eq_dec (fst (ANeuralNetworks_getDeviceCount h)) ANEURALNETWORKS_NO_ERROR)
    as [Hrc|Hrc].
  2:{ rewrite GetTargetDevices_count_fail by assumption. exists []. cbn [fst snd].
      rewrite app_nil_r. split; [reflexivity|]. intros d []. }
  rewrite GetTargetDevices_loop by assumption.
  pose proof (length_enumerated h) as Hn. unfold enumerated in *.
  set (n := Z.to_nat (to_uint32 (snd (ANeuralNetworks_getDeviceCount h)))) in *.
  destruct (device_loop_general h opt n 0 (-1)
              (mkWorld devs [(DeviceCount, ANEURALNETWORKS_NO_ERROR)]))
    as (k & r & w' & Hk & E & Hdev & _ & Hr).
  rewrite E. cbn [devices] in Hdev. destruct r as [c|st]; cbn [fst snd].
  - destruct Hr as (-> & -> & _). rewrite Hdev. cbn [devices].
    destruct (cpu_last_after_scan opt devs (map (device_at h) (indices 0 n)))
      as (added & Ea & Hperm & _).
    { pose proof (filter_length_le (selected opt) (map (device_at h) (indices 0 n))). lia. }
    rewrite Ea. exists added. split; [reflexivity|].
    intros d Hd. apply (Permutation_in _ Hperm) in Hd.
    apply List.filter_In in Hd as [Hin Hsel]. split; assumption.
  - rewrite Hdev. eexists. split; [reflexivity|].
    intros d Hd. apply List.filter_In in Hd as [Hin Hsel]. split; [exact Hsel|].
    apply in_map_iff in Hin as (j & <- & Hj). apply in_map.
    apply (indices_incl k n); [lia|exact Hj].
Qed.

Lemma GetTargetDevices_only_appends_witness :
  exists added,
    snd (fst (GetTargetDevices None (test_handle 30 4) ALL_DEVICES [test_acc 7]))
      = [test_acc 7] ++ added
    /\ (forall d, In d added ->
          selected ALL_DEVICES d = true /\ In d (enumerated (test_handle 30 4))).
Proof.
  apply (GetTargetDevices_only_appends None (test_handle 30 4) ALL_DEVICES [test_acc 7]).
  vm_compute. reflexivity.
Defined.











(** *** The Android API level and the policy's level *)

(** X14.  On an Android build the device's API level, when below
    [__ANDROID_API_S__], replaces the handle's runtime feature level: it
    is what the functions use, so below API level 29 [GetTargetDevices]
    adds nothing and asks nothing whatever level the handle reports, and
    the level for a policy is the API level. *)
Theorem android_api_level_rules api h opt devs :
  - 2 ^ 31 <= api < __ANDROID_API_S__ ->
  GetNNAPIRuntimeFeatureLevel (Some api) h = api
  /\ (api < ANEURALNETWORKS_FEATURE_LEVEL_3 ->
      GetTargetDevices (Some api) h opt devs = (OK, devs, [])
      /\ GetNNAPIEffectiveFeatureLevelFromTargetDeviceOption (Some api) h opt = api).
Proof.
  intros Hapi.
  assert (Hrt : GetNNAPIRuntimeFeatureLevel (Some api) h = api).
  { unfold GetNNAPIRuntimeFeatureLevel. cbv zeta.
    rewrite (to_int32_small api) by (unfold __ANDROID_API_S__ in Hapi; lia).
    replace (api <? __ANDROID_API_S__) with true by (symmetry; apply Z.ltb_lt; lia).
    reflexivity. }
  split; [exact Hrt|]. intros Hlow.
  assert (Hgate : GetNNAPIRuntimeFeatureLevel (Some api) h < ANEURALNETWORKS_FEATURE_LEVEL_3)
    by (rewrite Hrt; exact Hlow).
  split; [apply GetTargetDevices_gate; exact Hgate|].
  unfold GetNNAPIEffectiveFeatureLevelFromTargetDeviceOption.
  rewrite GetTargetDevices_gate by exact Hgate. cbn [IsOK negb].
  rewrite cap_nil. exact Hrt.
Qed.

Lemma android_api_level_rules_witness :
  GetNNAPIRuntimeFeatureLevel (Some 28) (test_handle 1000 0) = 28
  /\ GetTargetDevices (Some 28) (test_handle 1000 0) ALL_DEVICES [] = (OK, [], [])
  /\ GetNNAPIEffectiveFeatureLevelFromTargetDeviceOption
       (Some 28) (test_handle 1000 0) ALL_DEVICES = 28.
Proof.
  assert (Hapi : - 2 ^ 31 <= 28 < __ANDROID_API_S__)
    by (vm_compute; split; [discriminate|reflexivity]).
  destruct (android_api_level_rules 28 (test_handle 1000 0) ALL_DEVICES [] Hapi)
    as [Hrt Hlow].
  split; [exact Hrt|]. apply Hlow. reflexivity.
Defined.


